(** * minecraft-last: the launcher's resolution and launch-assembly engine

    A shallow embedding of [minecraftLauncher.go] (and of the earlier
    revision of the same [main], which shares the rule loop, the coordinate
    split and the argument substitution), together with the properties
    of rule evaluation, coordinate resolution, signature verification,
    native extraction, argument substitution, launch assembly and process
    supervision.

    Go strings are byte strings: they are [string] here (a list of 8-bit
    [ascii]); file contents and digests are [list byte]; Go maps are
    [gmap]s read with the zero value as default. *)

From Stdlib Require Import ZArith Ascii Lia.
From Stdlib.Strings Require Import Byte.
From stdpp Require Import base option list strings gmap.

Local Open Scope Z_scope.

(** ** The parts of Go's standard library the launcher calls *)

Module strings.

(** [strings.Index(s, sep) >= 0] for a one-byte [sep]. *)
Fixpoint Contains (s : string) (sep : ascii) : bool :=
  match s with
  | EmptyString => false
  | String c s' => if Ascii.eqb c sep then true else Contains s' sep
  end.

(** [s[:m]] and [s[m+1:]] for [m = strings.Index(s, sep)], when [m >= 0]. *)
Fixpoint cut (s : string) (sep : ascii) : option (string * string) :=
  match s with
  | EmptyString => None
  | String c s' =>
      if Ascii.eqb c sep then Some (EmptyString, s')
      else match cut s' sep with
           | Some (before, after) => Some (String c before, after)
           | None => None
           end
  end.

(** [strings.SplitN(s, sep, n)] for a one-byte [sep] and [n >= 0]: at most
    [n] pieces, the last one being the unsplit remainder; no piece at all
    for [n = 0]. *)
Fixpoint SplitN (s : string) (sep : ascii) (n : nat) : list string :=
  match n with
  | O => []
  | S O => [s]
  | S n' =>
      match cut s sep with
      | Some (before, after) => before :: SplitN after sep n'
      | None => [s]
      end
  end.

(** [strings.Split(s, sep)] for a one-byte [sep]: every piece between two
    separators; the empty string gives one empty piece. *)
Fixpoint Split (s : string) (sep : ascii) : list string :=
  match s with
  | EmptyString => [EmptyString]
  | String c s' =>
      if Ascii.eqb c sep then EmptyString :: Split s' sep
      else match Split s' sep with
           | piece :: pieces => String c piece :: pieces
           | [] => [String c EmptyString]
           end
  end.

(** [strings.Join(elems, sep)]. *)
Fixpoint Join (elems : list string) (sep : string) : string :=
  match elems with
  | [] => EmptyString
  | [e] => e
  | e :: rest => e +:+ sep +:+ Join rest sep
  end.

(** [len(s) >= len(p) && s[:len(p)] == p], the prefix test the launcher
    writes out by hand. *)
Fixpoint HasPrefix (s p : string) {struct p} : bool :=
  match p, s with
  | EmptyString, _ => true
  | String _ _, EmptyString => false
  | String a p', String b s' => if Ascii.eqb a b then HasPrefix s' p' else false
  end.

End strings.

Module path.

(** One step of [path.Clean] over the elements between slashes: [out] is
    the cleaned path so far, most recent element first. Empty and [.]
    elements vanish; [..] removes the element before it when there is one
    that is not itself [..], is dropped at the top of a rooted path, and
    is kept otherwise. *)
Definition clean_step (rooted : bool) (out : list string) (e : string) : list string :=
  if String.eqb e "" then out
  else if String.eqb e "." then out
  else if String.eqb e ".." then
    match out with
    | top :: below =>
        if String.eqb top ".." then e :: out else below
    | [] => if rooted then out else [e]
    end
  else e :: out.

Definition is_rooted (p : string) : bool :=
  match p with
  | String c _ => Ascii.eqb c "/"
  | EmptyString => false
  end.

(** The elements of the cleaned path, first to last. *)
Definition elements (p : string) : list string :=
  rev (fold_left (clean_step (is_rooted p)) (strings.Split p "/") []).

(** The cleaned path written out: a rooted path starts with a slash, and
    the empty path is written [.]. *)
Definition render (rooted : bool) (out : list string) : string :=
  if rooted then "/" +:+ strings.Join out "/"
  else match out with
       | [] => "."
       | _ => strings.Join out "/"
       end.

(** [path.Clean(p)]: the shortest path equivalent to [p] by purely
    lexical processing. *)
Definition Clean (p : string) : string := render (is_rooted p) (elements p).

(** [path.Join(elem...)]: empty elements are ignored, the others are
    joined with slashes and the result is cleaned; no element, or only
    empty ones, gives the empty string. *)
Definition Join (elem : list string) : string :=
  match filter (fun e : string => e <> "") elem with
  | [] => ""
  | es => Clean (strings.Join es "/")
  end.

End path.

Module sha1.

(** Bytes as numbers, and back (the low eight bits). *)
Definition Z_of_byte (b : byte) : Z := Z.of_N (Byte.to_N b).

Definition byte_of_Z (z : Z) : byte :=
  match Byte.of_N (Z.to_N (z mod 256)) with
  | Some b => b
  | None => x00
  end.

(** 32-bit words are [Z]s below [2^32]; sums wrap around. *)
Definition wrap (x : Z) : Z := x mod 2 ^ 32.
Definition add32 (x y : Z) : Z := wrap (x + y).
Definition rotl (n x : Z) : Z :=
  wrap (Z.lor (Z.shiftl x n) (Z.shiftr x (32 - n))).
Definition not32 (x : Z) : Z := Z.lxor x (2 ^ 32 - 1).

(** The low [k] bytes of [x], most significant first. *)
Definition be_bytes (k : nat) (x : Z) : list byte :=
  map (fun i => byte_of_Z (Z.shiftr x (8 * Z.of_nat i))) (rev (seq 0 k)).

(** The message followed by the bit [1], zero bytes up to 56 modulo 64,
    and the message length in bits as a 64-bit big-endian number. *)
Definition pad (msg : list byte) : list byte :=
  let len := Z.of_nat (length msg) in
  let zeros := Z.to_nat ((55 - len) mod 64) in
  msg ++ [x80] ++ replicate zeros x00 ++ be_bytes 8 (8 * len).

Fixpoint be_words (fuel : nat) (bs : list byte) : list Z :=
  match fuel, bs with
  | S fuel', b0 :: b1 :: b2 :: b3 :: rest =>
      (Z.shiftl (Z_of_byte b0) 24 + Z.shiftl (Z_of_byte b1) 16
       + Z.shiftl (Z_of_byte b2) 8 + Z_of_byte b3) :: be_words fuel' rest
  | _, _ => []
  end.

(** The message schedule, most recent word first: [w[t]] is the xor of
    [w[t-3]], [w[t-8]], [w[t-14]] and [w[t-16]] rotated left by one. *)
Fixpoint schedule (n : nat) (w : list Z) : list Z :=
  match n with
  | O => w
  | S n' =>
      let x := fun i => nth i w 0 in
      schedule n' (rotl 1 (Z.lxor (Z.lxor (x 2%nat) (x 7%nat))
                                  (Z.lxor (x 13%nat) (x 15%nat))) :: w)
  end.

Definition round_f (t : nat) (b c d : Z) : Z :=
  if (t <? 20)%nat then Z.lor (Z.land b c) (Z.land (not32 b) d)
  else if (t <? 40)%nat then Z.lxor (Z.lxor b c) d
  else if (t <? 60)%nat then
    Z.lor (Z.lor (Z.land b c) (Z.land b d)) (Z.land c d)
  else Z.lxor (Z.lxor b c) d.

Definition round_k (t : nat) : Z :=
  if (t <? 20)%nat then 0x5A827999
  else if (t <? 40)%nat then 0x6ED9EBA1
  else if (t <? 60)%nat then 0x8F1BBCDC
  else 0xCA62C1D6.

(** The five chaining words. *)
Definition chaining : Type := Z * Z * Z * Z * Z.

Definition round (st : chaining) (tw : nat * Z) : chaining :=
  let '(a, b, c, d, e) := st in
  let '(t, w) := tw in
  let tmp := add32 (add32 (add32 (add32 (rotl 5 a) (round_f t b c d)) e)
                          (round_k t)) w in
  (tmp, a, rotl 30 b, c, d).

Definition block (h : chaining) (chunk : list byte) : chaining :=
  let w := rev (schedule 64 (rev (be_words 16 chunk))) in
  let '(a, b, c, d, e) := fold_left round (zip (seq 0 80) w) h in
  let '(h0, h1, h2, h3, h4) := h in
  (add32 h0 a, add32 h1 b, add32 h2 c, add32 h3 d, add32 h4 e).

Fixpoint blocks (fuel : nat) (h : chaining) (bs : list byte) : chaining :=
  match fuel, bs with
  | S fuel', _ :: _ => blocks fuel' (block h (take 64 bs)) (drop 64 bs)
  | _, _ => h
  end.

Definition init : chaining :=
  (0x67452301, 0xEFCDAB89, 0x98BADCFE, 0x10325476, 0xC3D2E1F0).

(** [sha1.Sum]: the 20-byte SHA-1 digest (FIPS 180-4) of [msg]. *)
Definition Sum (msg : list byte) : list byte :=
  let p := pad msg in
  let '(h0, h1, h2, h3, h4) := blocks (length p) init p in
  be_bytes 4 h0 ++ be_bytes 4 h1 ++ be_bytes 4 h2 ++ be_bytes 4 h3
    ++ be_bytes 4 h4.

End sha1.

Definition bytes_of (s : string) : list byte := String.list_byte_of_string s.

(** ** Data model (the JSON-decoded structures of [minecraftLauncher.go]) *)

Definition launcherProfiles : string := "launcher_profiles.json".
Definition versionsDir : string := "versions".
Definition libraryDir : string := "libraries".
Definition jsonExt : string := ".json".
Definition jarExt : string := ".jar".
Definition sigExt : string := ".sha".
Definition allow : string := "allow".

Record Profile := { Profile_ID : string; Profile_Args : string }.

Record User := { User_Name : string; User_AccessToken : string }.

Record ProfileData := {
  Profiles : gmap string Profile;
  SelectedProfile : string;
  Users : gmap string User;
  SelectedUser : string
}.

Record OS := { OS_Name : string; OS_Version : string }.

Record Rule := { Rule_Action : string; Rule_OS : OS }.

Record Library := {
  Library_Name : string;
  Library_Rules : list Rule;
  Library_Natives : gmap string string;
  Library_Extract : gmap string (list string)
}.

Record LaunchConfig := {
  LaunchConfig_Args : string;
  LaunchConfig_Libraries : list Library;
  LaunchConfig_Class : string
}.

(** Reading a Go map: the zero value of the element type for a missing key. *)
Definition zero_Profile : Profile := {| Profile_ID := ""; Profile_Args := "" |}.
Definition zero_User : User := {| User_Name := ""; User_AccessToken := "" |}.

Definition get_Profile (m : gmap string Profile) (k : string) : Profile :=
  default zero_Profile (m !! k).
Definition get_User (m : gmap string User) (k : string) : User :=
  default zero_User (m !! k).
Definition get_string (m : gmap string string) (k : string) : string :=
  default "" (m !! k).
Definition get_strings (m : gmap string (list string)) (k : string) : list string :=
  default [] (m !! k).

(** [var hex = [...]byte{'0', ..., '9', 'a', ..., 'f'}] *)
Definition hex : list byte := bytes_of "0123456789abcdef".

(** ** The world outside the process *)

(** An opened file: its bytes, and whether reading it and seeking in it
    succeed. *)
Record File := { File_data : list byte; File_readable : bool; File_seekable : bool }.

(** What [file.Open()] followed by [io.Copy(df, cf)] gives for one entry of
    an archive. *)
Inductive EntryBody :=
  | OpenError
  | CopyError
  | Body (data : list byte).

(** [zip.File]: one entry of the archive's directory. *)
Record ZipFile := { ZipFile_Name : string; ZipFile_Body : EntryBody }.

(** The machine as the launcher finds it. The files are those of one
    moment: [library_steps] below lets them differ from one library to the
    next. *)
Record Env := {
  GOOS : string;                                   (* runtime.GOOS *)
  os_Open : string -> option File;                 (* the files that can be opened *)
  os_Create : string -> bool;                      (* the paths that can be created *)
  zip_NewReader : list byte -> option (list ZipFile); (* archive/zip *)
  StdoutPipe_ok : bool;                            (* cmd.StdoutPipe() *)
  Start_ok : bool;                                 (* cmd.Start() *)
  child_status : Z;                                (* what cmd.Wait() reports *)
  os_RemoveAll_ok : bool                           (* os.RemoveAll(nativesDir) *)
}.

(** What the process does to the world, in order. *)
Inductive effect :=
  | Mkdir (p : string)
  | CreateFile (p : string)
  | WriteFile (p : string) (data : list byte)
  | StartProcess (name : string) (args : list string)
  | RemoveAll (p : string).

(** The call sites of [fail], by their messages, and the diagnostic that
    is printed before [main] returns. *)
Inductive failure :=
  | UnknownLibraryFormat (name : string)
  | SignatureOpenFailed
  | SignatureReadFailed
  | NativeOpenFailed
  | NativeReadFailed
  | SignatureVerificationFailed (filename : string) (signature : list byte)
  | SeekFailed
  | ZipOpenFailed
  | CreateFailed
  | EntryOpenFailed
  | DecompressFailed
  | RemoveNativesFailed
  | StdoutPipeFailed.

(** ** The process as a state and exit monad *)

(** The mutable locals of [main] that outlive one loop iteration:
    [libraries], the bytes written to the shared [hash] since its last
    [Reset], and the effects so far. *)
Record state := {
  libraries : list string;
  hash : list byte;
  effects : list effect
}.

(** A computation either goes on with a value, leaves [main] through
    [return], or ends the process through [os.Exit(code)]. *)
Inductive res (A : Type) :=
  | Ok (a : A)
  | Return (why : failure)
  | Exit (code : Z) (why : failure).
Arguments Ok {A} a.
Arguments Return {A} why.
Arguments Exit {A} code why.

Definition M (A : Type) : Type := state -> state * res A.

Definition ret {A} (a : A) : M A := fun st => (st, Ok a).

Definition bind {A B} (c : M A) (k : A -> M B) : M B :=
  fun st =>
    match c st with
    | (st', Ok a) => k a st'
    | (st', Return why) => (st', Return why)
    | (st', Exit code why) => (st', Exit code why)
    end.

Notation "'let*' x ':=' c 'in' k" := (bind c (fun x => k))
  (at level 10, x name, c at level 100, k at level 200).
Notation "c ;; k" := (bind c (fun _ => k))
  (at level 100, k at level 200, right associativity).

(** [func fail(test bool, format string, args ...interface{})]: print and
    [os.Exit(0)] when [test] holds. *)
Definition fatal {A} (why : failure) : M A :=
  fun st => (st, Exit 0 why).

Definition fail (test : bool) (why : failure) : M unit :=
  if test then fatal why else ret tt.

Definition emit (e : effect) : M unit :=
  fun st => ({| libraries := libraries st; hash := hash st;
                effects := effects st ++ [e] |}, Ok tt).

Definition append_library (p : string) : M unit :=
  fun st => ({| libraries := libraries st ++ [p]; hash := hash st;
                effects := effects st |}, Ok tt).

(** [io.Copy(hash, f)], [hash.Sum(nil)] and [hash.Reset()] on the one hash
    object that [main] creates before the loop. *)
Definition hash_Write (data : list byte) : M unit :=
  fun st => ({| libraries := libraries st; hash := hash st ++ data;
                effects := effects st |}, Ok tt).

Definition hash_Sum : M (list byte) :=
  fun st => (st, Ok (sha1.Sum (hash st))).

Definition hash_Reset : M unit :=
  fun st => ({| libraries := libraries st; hash := [];
                effects := effects st |}, Ok tt).

(** ** [main], from the rule loop to the end *)

(** [osStr]: [runtime.GOOS], with [darwin] renamed. *)
Definition osStr_of (goos : string) : string :=
  if String.eqb goos "darwin" then "osx" else goos.

(** *** RuleEvaluator: the inner loop over [library.Rules] *)

Definition rule_matches (osStr : string) (rule : Rule) : bool :=
  String.eqb (OS_Name (Rule_OS rule)) osStr || String.eqb (OS_Name (Rule_OS rule)) "".

Definition rule_step (osStr : string) (allowed : bool) (rule : Rule) : bool :=
  if rule_matches osStr rule then String.eqb (Rule_Action rule) allow else allowed.

Definition rules_allowed (osStr : string) (rules : list Rule) : bool :=
  fold_left (rule_step osStr) rules (Nat.eqb (length rules) 0).

(** *** CoordinateResolver *)

(** [pieces], then [librarySplit] and [pathSplit]; [fail]s when the split at
    the first colon does not give two pieces. *)
Definition split_coordinate (name : string) : M (list string * list string) :=
  let pieces := strings.SplitN name ":" 2 in
  fail (negb (Nat.eqb (length pieces) 2)) (UnknownLibraryFormat name) ;;
  let librarySplit := strings.Split (nth 1 pieces "") ":" in
  let pathSplit := strings.Split (nth 0 pieces "") "." ++ librarySplit in
  ret (librarySplit, pathSplit).

Definition native_filename (librarySplit : list string) (classifier : string) : string :=
  strings.Join librarySplit "-" +:+ "-" +:+ classifier +:+ jarExt.

Definition ordinary_filename (librarySplit : list string) : string :=
  strings.Join librarySplit "-" +:+ jarExt.

Definition library_path (minecraftDir : string) (pathSplit : list string)
    (filename : string) : string :=
  path.Join [path.Join [minecraftDir; libraryDir]; path.Join (pathSplit ++ [filename])].

(** *** SignatureVerifier *)

(** [s[i]] for an index within bounds (every index below is: the buffer
    has 40 bytes, the digest 20, the table 16). *)
Definition byte_at (s : list byte) (i : Z) : byte := nth (Z.to_nat i) s x00.

Definition byte_neq (x y : byte) : bool := negb (Byte.eqb x y).

(** [hex[b>>4] != signature[n<<1] || hex[b&15] != signature[n<<1+1]] *)
Definition mismatch (signature : list byte) (n : nat) (b : byte) : bool :=
  let bz := sha1.Z_of_byte b in
  let nz := Z.of_nat n in
  byte_neq (byte_at hex (Z.shiftr bz 4)) (byte_at signature (Z.shiftl nz 1))
  || byte_neq (byte_at hex (Z.land bz 15)) (byte_at signature (Z.shiftl nz 1 + 1)).

(** [for n, b := range hash.Sum(nil) { fail(...) }] *)
Fixpoint verify_loop (filename : string) (signature : list byte) (n : nat)
    (sum : list byte) : M unit :=
  match sum with
  | [] => ret tt
  | b :: rest =>
      fail (mismatch signature n b) (SignatureVerificationFailed filename signature) ;;
      verify_loop filename signature (S n) rest
  end.

Definition open (env : Env) (p : string) (why : failure) : M File :=
  match os_Open env p with
  | Some f => ret f
  | None => fatal why
  end.

(** [io.ReadFull(sig, signature)] into the 40-byte buffer. *)
Definition ReadFull (f : File) (n : nat) : option (list byte) :=
  if File_readable f && (n <=? length (File_data f))%nat
  then Some (take n (File_data f)) else None.

(** Opening the digest file and the archive, reading and comparing; gives
    the open archive and the number of bytes copied into the hash. *)
Definition verify (env : Env) (nativeLib filename : string) : M (File * nat) :=
  let* sig := open env (nativeLib +:+ sigExt) SignatureOpenFailed in
  match ReadFull sig 40 with
  | None => fatal SignatureReadFailed
  | Some signature =>
      let* f := open env nativeLib NativeOpenFailed in
      fail (negb (File_readable f)) NativeReadFailed ;;
      hash_Write (File_data f) ;;
      let n := length (File_data f) in
      let* sum := hash_Sum in
      verify_loop filename signature 0 sum ;;
      hash_Reset ;;
      ret (f, n)
  end.

(** *** NativeExtractor *)

(** The inner loop over [excludes]: does some prefix match? *)
Definition excluded (excludes : list string) (name : string) : bool :=
  existsb (fun exclude => strings.HasPrefix name exclude) excludes.

(** The body of [ZipLoop] for an entry that is not excluded. *)
Definition extract_entry (env : Env) (nativesDir : string) (file : ZipFile) : M unit :=
  let dst := path.Join [nativesDir; ZipFile_Name file] in
  fail (negb (os_Create env dst)) CreateFailed ;;
  emit (CreateFile dst) ;;
  match ZipFile_Body file with
  | OpenError => fatal EntryOpenFailed
  | CopyError => fatal DecompressFailed
  | Body data => emit (WriteFile dst data)
  end.

Fixpoint ZipLoop (env : Env) (nativesDir : string) (excludes : list string)
    (files : list ZipFile) : M unit :=
  match files with
  | [] => ret tt
  | file :: rest =>
      (if excluded excludes (ZipFile_Name file) then ret tt
       else extract_entry env nativesDir file) ;;
      ZipLoop env nativesDir excludes rest
  end.

(** Seeking back, opening the archive as a zip, and the loop. *)
Definition extract (env : Env) (nativesDir : string) (excludes : list string)
    (f : File) (n : nat) : M unit :=
  fail (negb (File_seekable f)) SeekFailed ;;
  match zip_NewReader env (take n (File_data f)) with
  | None => fatal ZipOpenFailed
  | Some files => ZipLoop env nativesDir excludes files
  end.

(** *** The loop over [launchConfig.Libraries] *)

Definition library_step (env : Env) (minecraftDir nativesDir : string)
    (library : Library) : M unit :=
  let osStr := osStr_of (GOOS env) in
  if negb (rules_allowed osStr (Library_Rules library)) then ret tt
  else
    let* split := split_coordinate (Library_Name library) in
    let '(librarySplit, pathSplit) := split in
    let classifier := get_string (Library_Natives library) osStr in
    if negb (String.eqb classifier "") then
      let filename := native_filename librarySplit classifier in
      let nativeLib := library_path minecraftDir pathSplit filename in
      let* opened := verify env nativeLib filename in
      let '(f, n) := opened in
      extract env nativesDir (get_strings (Library_Extract library) "exclude") f n
    else
      let filename := ordinary_filename librarySplit in
      append_library (library_path minecraftDir pathSplit filename).

Fixpoint library_loop (env : Env) (minecraftDir nativesDir : string)
    (libs : list Library) : M unit :=
  match libs with
  | [] => ret tt
  | library :: rest =>
      library_step env minecraftDir nativesDir library ;;
      library_loop env minecraftDir nativesDir rest
  end.

(** *** ArgumentSubstitutor *)

(** The values the five placeholders stand for. *)
Record Context := {
  playerName : string;
  sessionToken : string;
  selectedUserId : string;
  selectedVersionId : string;
  installDirectory : string
}.

(** The [switch arg]: what is assigned to [ma[i]], if anything. *)
Definition replacement (ctx : Context) (arg : string) : option string :=
  if String.eqb arg "${auth_player_name}" then Some (playerName ctx)
  else if String.eqb arg "${auth_session}" then
    Some ("token:" +:+ sessionToken ctx +:+ ":" +:+ selectedUserId ctx)
  else if String.eqb arg "${version_name}" then Some (selectedVersionId ctx)
  else if String.eqb arg "${game_directory}" then Some (installDirectory ctx)
  else if String.eqb arg "${game_assets}" then
    Some (path.Join [installDirectory ctx; "assets"; "virtual"; "legacy"])
  else None.

(** [for i, arg := range ma { switch arg { ... ma[i] = ... } }]: [todo]
    iterations are left, the next one reads index [i] of the slice as it is
    then. *)
Fixpoint substitute_loop (ctx : Context) (todo i : nat) (ma : list string) : list string :=
  match todo with
  | O => ma
  | S todo' =>
      match ma !! i with
      | None => ma
      | Some arg =>
          let ma' := match replacement ctx arg with
                     | Some v => <[i := v]> ma
                     | None => ma
                     end in
          substitute_loop ctx todo' (S i) ma'
      end
  end.

Definition substitute (ctx : Context) (template : string) : list string :=
  let ma := strings.Split template " " in
  substitute_loop ctx (length ma) 0 ma.

(** The context [main] substitutes from: [profileData.Users[*user]],
    [*user], [profileData.Profiles[*profile].ID] and [*minecraftDir]. *)
Definition main_context (profileData : ProfileData) (minecraftDir profile user : string)
    : Context :=
  {| playerName := User_Name (get_User (Users profileData) user);
     sessionToken := User_AccessToken (get_User (Users profileData) user);
     selectedUserId := user;
     selectedVersionId := Profile_ID (get_Profile (Profiles profileData) profile);
     installDirectory := minecraftDir |}.

(** *** LaunchAssembler *)

Definition assemble (nativesDir : string) (libraries : list string)
    (class : string) (ma : list string) : list string :=
  [ "-Xmx1G";
    "-XX:+UseConcMarkSweepGC";
    "-XX:+CMSIncrementalMode";
    "-XX:-UseAdaptiveSizePolicy";
    "-Xmn128M";
    "-Djava.library.path=" +:+ nativesDir;
    "-cp";
    strings.Join libraries ":";
    class ] ++ ma.

(** *** ProcessSupervisor *)

(** From [exec.Command] to the end of [main]. The error of [StderrPipe]
    is overwritten, a failed [Start] is reported and nothing more, and
    what [Wait] returns is dropped. This is [main] when [StderrPipe]
    gives a pipe; [supervise_relayed] below is the code with and without
    the pipe. *)
Definition supervise (env : Env) (nativesDir : string) (args : list string) : M unit :=
  if negb (StdoutPipe_ok env) then (fun st => (st, Return StdoutPipeFailed))
  else
    (if Start_ok env then emit (StartProcess "java" args) else ret tt) ;;
    let* _status := ret (child_status env) in
    emit (RemoveAll nativesDir) ;;
    fail (negb (os_RemoveAll_ok env)) RemoveNativesFailed.

(** *** [main], once [*user] and [*profile] are settled

    The launch configuration has been decoded. What is printed on the
    way (the launch banner, the command under [-debug]) and the two
    goroutines that copy the child's output are left out here;
    [launch_relayed] below has the goroutine that can end the process. *)

Definition launch (env : Env) (profileData : ProfileData) (launchConfig : LaunchConfig)
    (minecraftDir profile user : string) : M unit :=
  let id := Profile_ID (get_Profile (Profiles profileData) profile) in
  let versionDir := path.Join [minecraftDir; versionsDir; id] in
  let nativesDir := path.Join [versionDir; "natives"] in
  emit (Mkdir nativesDir) ;;
  library_loop env minecraftDir nativesDir (LaunchConfig_Libraries launchConfig) ;;
  append_library (path.Join [versionDir; id +:+ jarExt]) ;;
  let ma := substitute (main_context profileData minecraftDir profile user)
              (LaunchConfig_Args launchConfig) in
  fun st =>
    supervise env nativesDir
      (assemble nativesDir (libraries st) (LaunchConfig_Class launchConfig) ma) st.

Definition initial : state := {| libraries := []; hash := []; effects := [] |}.


Definition run (env : Env) (profileData : ProfileData) (launchConfig : LaunchConfig)
    (minecraftDir profile user : string) : state * res unit :=
  launch env profileData launchConfig minecraftDir profile user initial.

(** ** The earlier revision of [main]

    It skips native libraries before it looks at the rules, leaves [main]
    with [return] instead of [os.Exit], and substitutes from the selected
    user and profile. The rule loop, the split and the [switch] are the
    same text. *)

Module Part000.

Definition library_step (env : Env) (minecraftDir : string) (library : Library) : M unit :=
  let osStr := osStr_of (GOOS env) in
  if negb (String.eqb (get_string (Library_Natives library) osStr) "") then ret tt
  else if negb (rules_allowed osStr (Library_Rules library)) then ret tt
  else
    let pieces := strings.SplitN (Library_Name library) ":" 2 in
    if negb (Nat.eqb (length pieces) 2)
    then (fun st => (st, Return (UnknownLibraryFormat (Library_Name library))))
    else
      let librarySplit := strings.Split (nth 1 pieces "") ":" in
      let filename := strings.Join librarySplit "-" +:+ jarExt in
      let pathSplit := strings.Split (nth 0 pieces "") "." ++ librarySplit in
      append_library
        (path.Join [path.Join [minecraftDir; libraryDir];
                    path.Join (pathSplit ++ [filename])]).

Fixpoint library_loop (env : Env) (minecraftDir : string) (libs : list Library) : M unit :=
  match libs with
  | [] => ret tt
  | library :: rest =>
      library_step env minecraftDir library ;;
      library_loop env minecraftDir rest
  end.

Definition context (profileData : ProfileData) (minecraftDir : string) : Context :=
  main_context profileData minecraftDir
    (SelectedProfile profileData) (SelectedUser profileData).

End Part000.

(** ** The vocabulary of the properties

    Where a claim is worded differently from the code, its words get a
    definition of their own here, to be compared with the code's. *)

(** A rule applies on a platform when its platform field is that platform
    or is empty. *)
Definition applies (osStr : string) (rule : Rule) : Prop :=
  OS_Name (Rule_OS rule) = osStr \/ OS_Name (Rule_OS rule) = "".

(** Two rules that differ at most in their version field. *)
Definition same_but_version (r1 r2 : Rule) : Prop :=
  Rule_Action r1 = Rule_Action r2 /\ OS_Name (Rule_OS r1) = OS_Name (Rule_OS r2).

(** What one token becomes: the value assigned by the [switch], or the
    token itself. *)
Definition token_value (ctx : Context) (arg : string) : string :=
  default arg (replacement ctx arg).

(** "Split the template on whitespace into tokens", then replace each
    token: the tokens are the maximal runs of characters other than space,
    tab, line feed, vertical tab, form feed and carriage return. *)
Definition substitute_on_whitespace (ctx : Context) (template : string) : list string :=
  map (token_value ctx) (String.words template).

(** The upper and the lower half of a byte, and the lowercase hexadecimal
    digit of a number below 16, as character codes. *)
Definition high_nibble (b : byte) : Z := sha1.Z_of_byte b / 16.
Definition low_nibble (b : byte) : Z := sha1.Z_of_byte b mod 16.
Definition hex_digit (nibble : Z) : byte :=
  sha1.byte_of_Z (if nibble <? 10 then 48 + nibble else 87 + nibble).

(** The digest file agrees with a digest: character [2i] is the digit of
    the high half of byte [i], character [2i+1] that of its low half. *)
Definition digest_agrees (signature sum : list byte) : Prop :=
  forall (i : nat) (b : byte),
    sum !! i = Some b ->
    signature !! (2 * i)%nat = Some (hex_digit (high_nibble b))
    /\ signature !! (2 * i + 1)%nat = Some (hex_digit (low_nibble b)).

(** The failures of verification, as opposed to those of extraction. *)
Definition verification_failure (why : failure) : Prop :=
  match why with
  | SignatureOpenFailed | SignatureReadFailed | NativeOpenFailed
  | NativeReadFailed | SignatureVerificationFailed _ _ => True
  | _ => False
  end.

(** The failures of extraction. *)
Definition extraction_failure (why : failure) : Prop :=
  match why with
  | SeekFailed | ZipOpenFailed | CreateFailed | EntryOpenFailed
  | DecompressFailed => True
  | _ => False
  end.

(** A computation that, when it does not go on, ends the process with
    status 0 for one of the reasons [P], and never just returns. *)
Definition exits_with {A} (P : failure -> Prop) (c : M A) : Prop :=
  forall st st' r,
    c st = (st', r) ->
    match r with
    | Ok _ => True
    | Return _ => False
    | Exit code why => code = 0 /\ P why
    end.

Definition with_hash (st : state) (h : list byte) : state :=
  {| libraries := libraries st; hash := h; effects := effects st |}.

Definition with_effects (st : state) (es : list effect) : state :=
  {| libraries := libraries st; hash := hash st; effects := effects st ++ es |}.

(** A path starts with a prefix. *)
Definition starts_with (s p : string) : Prop := exists rest, s = p +:+ rest.

(** An entry is kept when no exclusion prefix matches its path. *)
Definition kept (excludes : list string) (file : ZipFile) : Prop :=
  excluded excludes (ZipFile_Name file) = false.

#[global] Instance kept_dec (excludes : list string) (file : ZipFile) :
  Decision (kept excludes file) :=
  decide (excluded excludes (ZipFile_Name file) = false).

(** Where an entry is written, and what writing it does to the world: the
    file is created, and its decompressed bytes are copied unless opening
    or decompressing the entry fails. *)
Definition destination (nativesDir : string) (file : ZipFile) : string :=
  path.Join [nativesDir; ZipFile_Name file].

Definition written (nativesDir : string) (file : ZipFile) : list effect :=
  match ZipFile_Body file with
  | Body data => [CreateFile (destination nativesDir file);
                  WriteFile (destination nativesDir file) data]
  | _ => [CreateFile (destination nativesDir file)]
  end.

(** Nothing stands in the way of writing the entry. *)
Definition extractable (env : Env) (nativesDir : string) (file : ZipFile) : Prop :=
  os_Create env (destination nativesDir file) = true
  /\ exists data, ZipFile_Body file = Body data.

(** A path element that cleaning leaves alone: not empty, not [.] or
    [..], and without a slash. *)
Definition plain (s : string) : Prop :=
  s <> "" /\ s <> "." /\ s <> ".." /\ strings.Contains s "/" = false.

(** The shape of a cleaned path, last element first: plain elements on
    top of leading [..] elements, which a rooted path does not have. *)
Definition cleaned (rooted : bool) (out : list string) : Prop :=
  exists plains k,
    out = plains ++ replicate k ".."
    /\ Forall plain plains
    /\ (rooted = true -> k = 0%nat).

(** What one library adds to the classpath: its resolved path when the
    rules allow it, its coordinate has a colon and it has no classifier for
    the platform. *)
Definition classpath_entry (env : Env) (minecraftDir : string) (library : Library)
    : list string :=
  let osStr := osStr_of (GOOS env) in
  if rules_allowed osStr (Library_Rules library) then
    match strings.cut (Library_Name library) ":" with
    | Some (group, rest) =>
        if String.eqb (get_string (Library_Natives library) osStr) "" then
          [library_path minecraftDir
             (strings.Split group "." ++ strings.Split rest ":")
             (ordinary_filename (strings.Split rest ":"))]
        else []
    | None => []
    end
  else [].

(** The platform's path separator, as [os.PathListSeparator] has it: a
    semicolon on Windows, a colon elsewhere. *)
Definition PathListSeparator (goos : string) : string :=
  if String.eqb goos "windows" then ";" else ":".

(** The argument vector with the classpath "joined with the platform path
    separator". *)
Definition assemble_for_platform (goos nativesDir : string) (libraries : list string)
    (class : string) (ma : list string) : list string :=
  [ "-Xmx1G";
    "-XX:+UseConcMarkSweepGC";
    "-XX:+CMSIncrementalMode";
    "-XX:-UseAdaptiveSizePolicy";
    "-Xmn128M";
    "-Djava.library.path=" +:+ nativesDir;
    "-cp";
    strings.Join libraries (PathListSeparator goos);
    class ] ++ ma.

(** The same machine with another child. *)
Definition with_child_status (env : Env) (status : Z) : Env :=
  {| GOOS := GOOS env;
     os_Open := os_Open env;
     os_Create := os_Create env;
     zip_NewReader := zip_NewReader env;
     StdoutPipe_ok := StdoutPipe_ok env;
     Start_ok := Start_ok env;
     child_status := status;
     os_RemoveAll_ok := os_RemoveAll_ok env |}.

(** ** Sample data *)

Definition rule (action os : string) : Rule :=
  {| Rule_Action := action; Rule_OS := {| OS_Name := os; OS_Version := "" |} |}.

Definition versioned (action os version : string) : Rule :=
  {| Rule_Action := action; Rule_OS := {| OS_Name := os; OS_Version := version |} |}.

Definition no_natives (name : string) (rules : list Rule) : Library :=
  {| Library_Name := name; Library_Rules := rules;
     Library_Natives := ∅; Library_Extract := ∅ |}.

(** A Unix machine on which nothing can be opened or created, and a child
    that ends with status 1. *)
Definition bare_env : Env :=
  {| GOOS := "linux";
     os_Open := fun _ => None;
     os_Create := fun _ => false;
     zip_NewReader := fun _ => None;
     StdoutPipe_ok := true;
     Start_ok := true;
     child_status := 1;
     os_RemoveAll_ok := true |}.

Definition TAB : ascii := "009"%char.

Definition alice : Context :=
  {| playerName := "Alice"; sessionToken := "s3cr3t"; selectedUserId := "u-1";
     selectedVersionId := "1.7.10"; installDirectory := "/home/x/game" |}.

(** A readable, seekable file. *)
Definition file_of (data : list byte) : File :=
  {| File_data := data; File_readable := true; File_seekable := true |}.

(** A launch with one ordinary and one native dependency. *)
Definition sample_native : string :=
  "/mc/libraries/org/lwjgl/lwjgl-platform/2.9.0/lwjgl-platform-2.9.0-natives-linux.jar".

Definition sample_digest : list byte :=
  bytes_of "a9993e364706816aba3e25717850c26c9cd0d89d  lwjgl-platform.jar".

Definition sample_entries : list ZipFile :=
  [ {| ZipFile_Name := "META-INF/MANIFEST.MF"; ZipFile_Body := Body [] |};
    {| ZipFile_Name := "liblwjgl.so"; ZipFile_Body := Body (bytes_of "ELF") |} ].

(** A machine that holds the native archive, with contents [abc], and its
    digest file beside it. *)
Definition native_env (goos : string) (status : Z) : Env :=
  {| GOOS := goos;
     os_Open := fun p =>
       if String.eqb p sample_native then Some (file_of (bytes_of "abc"))
       else if String.eqb p (sample_native +:+ sigExt) then Some (file_of sample_digest)
       else None;
     os_Create := fun _ => true;
     zip_NewReader := fun _ => Some sample_entries;
     StdoutPipe_ok := true;
     Start_ok := true;
     child_status := status;
     os_RemoveAll_ok := true |}.

Definition sample_libraries : list Library :=
  [ no_natives "com.example:lib:1.2.3" [];
    {| Library_Name := "org.lwjgl:lwjgl-platform:2.9.0";
       Library_Rules := [rule "allow" ""];
       Library_Natives := {[ "linux" := "natives-linux" ]};
       Library_Extract := {[ "exclude" := ["META-INF/"] ]} |};
    no_natives "org.example:tool:2.0" [] ].

Definition sample_config : LaunchConfig :=
  {| LaunchConfig_Args := "--user ${auth_player_name} --dir ${game_directory}";
     LaunchConfig_Libraries := sample_libraries;
     LaunchConfig_Class := "net.minecraft.client.main.Main" |}.

Definition sample_profiles : ProfileData :=
  {| Profiles := {[ "survival" := {| Profile_ID := "1.7.10"; Profile_Args := "" |} ]};
     SelectedProfile := "survival";
     Users := {[ "u-1" := {| User_Name := "Alice"; User_AccessToken := "s3cr3t" |} ]};
     SelectedUser := "u-1" |}.
(** ** The rest of [main]: choosing the user and the profile

    [range] over a Go map visits every entry once, in an order the
    language leaves open and that may change from one loop to the next:
    each loop over a map takes the order it runs in as a list of the
    map's entries. *)

(** The command line, as [flag.Parse] leaves it. *)
Record Flags := {
  flag_minecraft : string;
  flag_debug : bool;
  flag_profile : string;
  flag_user : string;
  flag_lastprofile : bool;
  flag_lastuser : bool
}.

(** What opening a configuration file and decoding it gives. *)
Inductive config_read :=
  | ConfigOpenError
  | ConfigDecodeError
  | Decoded (launchConfig : LaunchConfig).

(** The orders of the three loops over maps, and the configuration files
    by their paths. *)
Record Ranges := {
  users_lookup : list (string * User);
  users_listing : list (string * User);
  profiles_listing : list (string * Profile);
  read_config : string -> config_read
}.

(** [for uuid, u := range profileData.Users { if u.Name == *user
    { *user = uuid; break } }] *)
Fixpoint find_user (order : list (string * User)) (user : string) : string :=
  match order with
  | [] => user
  | (uuid, u) :: rest =>
      if String.eqb (User_Name u) user then uuid else find_user rest user
  end.

Definition NL : ascii := "010"%char.

(** One line of a listing: a tab, the name, the mark of the entry that
    was used last, a line feed. *)
Definition listing_line (name : string) (marked : bool) (mark : string) : string :=
  String TAB (name +:+ (if marked then mark else "") +:+ String NL "").

Definition user_lines (order : list (string * User)) (selected : string) : list string :=
  map (fun entry : string * User =>
         listing_line (User_Name (snd entry)) (String.eqb (fst entry) selected)
           " (-lastuser)") order.

Definition profile_lines (order : list (string * Profile)) (selected : string)
    : list string :=
  map (fun entry : string * Profile =>
         listing_line (fst entry) (String.eqb (fst entry) selected)
           " (-lastprofile)") order.

(** How [main] ends when it does not reach the rule loop: the listing of
    the users or of the profiles, or one of the two messages about the
    configuration file; each is followed by [os.Exit(0)]. *)
Inductive stopped :=
  | NoUserSelected (lines : list string)
  | NoProfileSelected (lines : list string)
  | ConfigurationOpenFailed
  | ConfigurationDecodeFailed.

(** The user [main] goes on with: the one used last, or the one whose
    display name was given, or else the given string itself; it has to be
    a key of the user database. *)
Definition select_user (ranges : Ranges) (profileData : ProfileData) (flags : Flags)
    : stopped + string :=
  let user := if flag_lastuser flags then SelectedUser profileData
              else find_user (users_lookup ranges) (flag_user flags) in
  match Users profileData !! user with
  | Some _ => inr user
  | None => inl (NoUserSelected
                   (user_lines (users_listing ranges) (SelectedUser profileData)))
  end.

Definition select_profile (ranges : Ranges) (profileData : ProfileData) (flags : Flags)
    : stopped + string :=
  let profile := if flag_lastprofile flags then SelectedProfile profileData
                 else flag_profile flags in
  match Profiles profileData !! profile with
  | Some _ => inr profile
  | None => inl (NoProfileSelected
                   (profile_lines (profiles_listing ranges) (SelectedProfile profileData)))
  end.

(** Where the configuration of a profile is read from. *)
Definition config_path (minecraftDir : string) (profileData : ProfileData)
    (profile : string) : string :=
  let id := Profile_ID (get_Profile (Profiles profileData) profile) in
  path.Join [path.Join [minecraftDir; versionsDir; id]; id +:+ jsonExt].

(** [main] from the decoded profile database on. *)
Definition main (env : Env) (ranges : Ranges) (profileData : ProfileData)
    (flags : Flags) : stopped + state * res unit :=
  match select_user ranges profileData flags with
  | inl stop => inl stop
  | inr user =>
      match select_profile ranges profileData flags with
      | inl stop => inl stop
      | inr profile =>
          match read_config ranges
                  (config_path (flag_minecraft flags) profileData profile) with
          | ConfigOpenError => inl ConfigurationOpenFailed
          | ConfigDecodeError => inl ConfigurationDecodeFailed
          | Decoded launchConfig =>
              inr (run env profileData launchConfig (flag_minecraft flags) profile user)
          end
      end
  end.

(** The ranges are orders of the maps they range over. *)
Definition ranges_of (ranges : Ranges) (profileData : ProfileData) : Prop :=
  users_lookup ranges ≡ₚ map_to_list (Users profileData)
  /\ users_listing ranges ≡ₚ map_to_list (Users profileData)
  /\ profiles_listing ranges ≡ₚ map_to_list (Profiles profileData).


(** ** The rest of the earlier revision

    It launches the selected profile with the selected user, looks for a
    natives directory that is already there instead of extracting one, and
    starts a fixed main class. *)

Module Part000Main.

(** What [f.Readdir(1)] gives, call after call; the end of the list is
    [io.EOF]. *)
Inductive dirent :=
  | Entry (name : string)
  | ReadError.

(** The version directory: what [os.Stat] says of it ([None] for an
    error, else whether it is a directory), whether it can be opened, and
    its listing. *)
Record Dir := {
  Stat : option bool;
  Open_ok : bool;
  Readdir : list dirent
}.

Inductive stopped :=
  | StatFailed
  | NotADirectory
  | OpenFailed
  | ReaddirFailed
  | ConfigurationOpenFailed
  | ConfigurationDecodeFailed.

(** The loop over the directory: the first name that starts with
    [toMatch], the empty string when the listing ends without one, and
    nothing when reading fails before. *)
Fixpoint find_natives (toMatch : string) (listing : list dirent) : option string :=
  match listing with
  | [] => Some ""
  | ReadError :: _ => None
  | Entry s :: rest =>
      if strings.HasPrefix s toMatch then Some s else find_natives toMatch rest
  end.

Definition assemble (nativesPath : string) (libraries : list string)
    (ma : list string) : list string :=
  [ "-Xmx1G";
    "-XX:+UseConcMarkSweepGC";
    "-XX:+CMSIncrementalMode";
    "-XX:-UseAdaptiveSizePolicy";
    "-Xmn128M";
    "-Djava.library.path=" +:+ nativesPath;
    "-cp";
    strings.Join libraries ":";
    "net.minecraft.launchwrapper.Launch" ] ++ ma.

(** From [exec.Command] to the end, when [StderrPipe] gives a pipe:
    nothing is removed afterwards. [Part000Relayed.supervise] below is
    the code with and without the pipe. *)
Definition supervise (env : Env) (args : list string) : M unit :=
  if negb (StdoutPipe_ok env) then (fun st => (st, Return StdoutPipeFailed))
  else
    (if Start_ok env then emit (StartProcess "java" args) else ret tt) ;;
    let* _status := ret (child_status env) in
    ret tt.

(** From the library loop on. *)
Definition launch (env : Env) (profileData : ProfileData) (launchConfig : LaunchConfig)
    (minecraftDir versionDir nativesDir : string) : M unit :=
  let id := Profile_ID (get_Profile (Profiles profileData) (SelectedProfile profileData)) in
  Part000.library_loop env minecraftDir (LaunchConfig_Libraries launchConfig) ;;
  append_library (path.Join [versionDir; id +:+ jarExt]) ;;
  let ma := substitute (Part000.context profileData minecraftDir)
              (LaunchConfig_Args launchConfig) in
  fun st =>
    supervise env (assemble (path.Join [versionDir; nativesDir]) (libraries st) ma) st.

(** [main] from the decoded profile database on. *)
Definition main (env : Env) (dir : Dir) (config : config_read)
    (profileData : ProfileData) (minecraftDir : string) : stopped + state * res unit :=
  let id := Profile_ID (get_Profile (Profiles profileData) (SelectedProfile profileData)) in
  let versionDir := path.Join [minecraftDir; versionsDir; id] in
  match Stat dir with
  | None => inl StatFailed
  | Some false => inl NotADirectory
  | Some true =>
      if negb (Open_ok dir) then inl OpenFailed
      else
        match find_natives (id +:+ "-natives-") (Readdir dir) with
        | None => inl ReaddirFailed
        | Some nativesDir =>
            match config with
            | ConfigOpenError => inl ConfigurationOpenFailed
            | ConfigDecodeError => inl ConfigurationDecodeFailed
            | Decoded launchConfig =>
                inr (launch env profileData launchConfig minecraftDir versionDir
                       nativesDir initial)
            end
        end
  end.

End Part000Main.


(** ** More vocabulary *)

(** Creating a file or writing one, as opposed to everything else. *)
Definition file_effect (e : effect) : Prop :=
  match e with
  | CreateFile _ | WriteFile _ _ => True
  | _ => False
  end.

(** How often a character occurs in a string, and the string with every
    occurrence of one character replaced by another. *)
Fixpoint count_char (c : ascii) (s : string) : nat :=
  match s with
  | EmptyString => 0
  | String x s' => (if Ascii.eqb x c then 1 else 0) + count_char c s'
  end.

Fixpoint replace_char (a b : ascii) (s : string) : string :=
  match s with
  | EmptyString => EmptyString
  | String x s' => String (if Ascii.eqb x a then b else x) (replace_char a b s')
  end.


(** ** Sample data for the rest of the code *)

Definition entry (name : string) (data : list byte) : ZipFile :=
  {| ZipFile_Name := name; ZipFile_Body := Body data |}.

(** A machine on which every path can be created. *)
Definition open_env : Env :=
  {| GOOS := "linux";
     os_Open := fun _ => None;
     os_Create := fun _ => true;
     zip_NewReader := fun _ => None;
     StdoutPipe_ok := true;
     Start_ok := true;
     child_status := 0;
     os_RemoveAll_ok := true |}.


Definition flags_user (dir name : string) : Flags :=
  {| flag_minecraft := dir; flag_debug := false; flag_profile := "survival";
     flag_user := name; flag_lastprofile := false; flag_lastuser := false |}.

(** The ranges in the order the maps list their entries, with the sample
    configuration at the place it is read from. *)
Definition sample_ranges : Ranges :=
  {| users_lookup := map_to_list (Users sample_profiles);
     users_listing := map_to_list (Users sample_profiles);
     profiles_listing := map_to_list (Profiles sample_profiles);
     read_config := fun p =>
       if String.eqb p "/mc/versions/1.7.10/1.7.10.json" then Decoded sample_config
       else ConfigOpenError |}.




(** ** The stderr pipe, and the goroutine that copies from it

    [stderr, err := cmd.StderrPipe()] is followed by no test of [err]:
    the test that names the pipe stands before the call, where it looks at
    the error of [StdoutPipe] a second time, and [err = cmd.Start()]
    overwrites the error. When [StderrPipe] fails, [stderr] is nil, and
    [go io.Copy(os.Stderr, stderr)] reads from a nil reader: the goroutine
    panics, and a panic in any goroutine ends the whole process with
    status 2, unless the process is over before. Whether [main] ends first,
    and whether the panic comes while [main] is in [cmd.Wait()] or after
    [os.RemoveAll], is up to the scheduler.

    [supervise] and [launch] above are the code when [StderrPipe] gives a
    pipe; the definitions here are the code in both cases. *)

(** How the race between [main] and the panicking goroutine goes. *)
Inductive race :=
  | MainEndsFirst
  | PanicBeforeRemoveAll
  | PanicAfterRemoveAll.

(** Whether [cmd.StderrPipe()] gives a pipe, and the race when it does
    not. *)
Record Relays := {
  StderrPipe_ok : bool;
  stderr_race : race
}.

(** How the process ends: as [main] ends it, or with the panic. *)
Inductive ending :=
  | Ended (r : res unit)
  | Panicked.


(** The goroutine panics before [main] calls [os.RemoveAll], or after. *)
Definition panics_early (relays : Relays) : bool :=
  negb (StderrPipe_ok relays)
  && match stderr_race relays with PanicBeforeRemoveAll => true | _ => false end.

Definition panics_late (relays : Relays) : bool :=
  negb (StderrPipe_ok relays)
  && match stderr_race relays with PanicAfterRemoveAll => true | _ => false end.

(** From [exec.Command] to the end of the process. *)
Definition supervise_relayed (env : Env) (relays : Relays) (nativesDir : string)
    (args : list string) : state -> state * ending :=
  fun st =>
    if negb (StdoutPipe_ok env) then (st, Ended (Return StdoutPipeFailed))
    else
      let st1 := if Start_ok env then with_effects st [StartProcess "java" args]
                 else st in
      let _status := child_status env in
      if panics_early relays then (st1, Panicked)
      else
        let st2 := with_effects st1 [RemoveAll nativesDir] in
        if panics_late relays then (st2, Panicked)
        else if os_RemoveAll_ok env then (st2, Ended (Ok tt))
        else (st2, Ended (Exit 0 RemoveNativesFailed)).

(** [main], once [*user] and [*profile] are settled, to the end of the
    process. *)
Definition launch_relayed (env : Env) (relays : Relays) (profileData : ProfileData)
    (launchConfig : LaunchConfig) (minecraftDir profile user : string)
    : state -> state * ending :=
  let id := Profile_ID (get_Profile (Profiles profileData) profile) in
  let versionDir := path.Join [minecraftDir; versionsDir; id] in
  let nativesDir := path.Join [versionDir; "natives"] in
  let ma := substitute (main_context profileData minecraftDir profile user)
              (LaunchConfig_Args launchConfig) in
  fun st =>
    match (emit (Mkdir nativesDir) ;;
           library_loop env minecraftDir nativesDir (LaunchConfig_Libraries launchConfig) ;;
           append_library (path.Join [versionDir; id +:+ jarExt])) st with
    | (st1, Ok _) =>
        supervise_relayed env relays nativesDir
          (assemble nativesDir (libraries st1) (LaunchConfig_Class launchConfig) ma) st1
    | (st1, Return why) => (st1, Ended (Return why))
    | (st1, Exit code why) => (st1, Ended (Exit code why))
    end.

Definition run_relayed (env : Env) (relays : Relays) (profileData : ProfileData)
    (launchConfig : LaunchConfig) (minecraftDir profile user : string) : state * ending :=
  launch_relayed env relays profileData launchConfig minecraftDir profile user initial.

(** The earlier revision has the same lines about the two pipes, and no
    [os.RemoveAll]: the panic comes before [main] returns or not at all. *)
Module Part000Relayed.

Definition supervise (env : Env) (relays : Relays) (args : list string)
    : state -> state * ending :=
  fun st =>
    if negb (StdoutPipe_ok env) then (st, Ended (Return StdoutPipeFailed))
    else
      let st1 := if Start_ok env then with_effects st [StartProcess "java" args]
                 else st in
      let _status := child_status env in
      if panics_early relays || panics_late relays then (st1, Panicked)
      else (st1, Ended (Ok tt)).

(** From the library loop to the end of the process. *)
Definition launch (env : Env) (relays : Relays) (profileData : ProfileData)
    (launchConfig : LaunchConfig) (minecraftDir versionDir nativesDir : string)
    : state -> state * ending :=
  let id := Profile_ID (get_Profile (Profiles profileData) (SelectedProfile profileData)) in
  let ma := substitute (Part000.context profileData minecraftDir)
              (LaunchConfig_Args launchConfig) in
  fun st =>
    match (Part000.library_loop env minecraftDir (LaunchConfig_Libraries launchConfig) ;;
           append_library (path.Join [versionDir; id +:+ jarExt])) st with
    | (st1, Ok _) =>
        supervise env relays
          (Part000Main.assemble (path.Join [versionDir; nativesDir]) (libraries st1) ma) st1
    | (st1, Return why) => (st1, Ended (Return why))
    | (st1, Exit code why) => (st1, Ended (Exit code why))
    end.

End Part000Relayed.

(** ** The library loop over files that change

    [os.Open] reads the files as they are when it is called, and what the
    launcher itself has written by then (an entry of an earlier archive,
    created wherever its path leads) is among them. Here every iteration
    of the loop has the machine as it is at that iteration. *)
Fixpoint library_steps (minecraftDir nativesDir : string) (steps : list (Env * Library))
    : M unit :=
  match steps with
  | [] => ret tt
  | (env, library) :: rest =>
      library_step env minecraftDir nativesDir library ;;
      library_steps minecraftDir nativesDir rest
  end.

(** ** Sample data for the pipes and the changing files *)

Definition both_pipes : Relays :=
  {| StderrPipe_ok := true; stderr_race := MainEndsFirst |}.

Definition nil_stderr (r : race) : Relays :=
  {| StderrPipe_ok := false; stderr_race := r |}.

(** A launch with classpath dependencies only: no archive is opened. *)
Definition classpath_config : LaunchConfig :=
  {| LaunchConfig_Args := "--user ${auth_player_name} --dir ${game_directory}";
     LaunchConfig_Libraries := [ no_natives "com.example:lib:1.2.3" [];
                                 no_natives "org.example:tool:2.0" [] ];
     LaunchConfig_Class := "net.minecraft.client.main.Main" |}.

(** A database in which two users have the display name [Alice]. *)
Definition twins : ProfileData :=
  {| Profiles := {[ "survival" := {| Profile_ID := "1.7.10"; Profile_Args := "" |} ]};
     SelectedProfile := "survival";
     Users := <[ "u-1" := {| User_Name := "Alice"; User_AccessToken := "s3cr3t" |} ]>
              {[ "u-2" := {| User_Name := "Alice"; User_AccessToken := "0th3r" |} ]};
     SelectedUser := "u-1" |}.

(** The archive without entries: the end-of-central-directory record
    alone, 22 bytes. *)
Definition empty_zip : list byte :=
  bytes_of "PK" ++ [x05; x06] ++ repeat x00 18.

Definition empty_zip_digest : list byte :=
  bytes_of "b04f3ee8f5e43fa3b162981b50bb72fe1acabb33".

Fixpoint same_bytes (a b : list byte) : bool :=
  match a, b with
  | [], [] => true
  | x :: a', y :: b' => Byte.eqb x y && same_bytes a' b'
  | _, _ => false
  end.

(** A machine that holds the native archive of the sample libraries, an
    archive without entries, with its digest file beside it, and one on
    which the digest file has been overwritten since. *)
Definition archive_env (digest : list byte) : Env :=
  {| GOOS := "linux";
     os_Open := fun p =>
       if String.eqb p sample_native then Some (file_of empty_zip)
       else if String.eqb p (sample_native +:+ sigExt) then Some (file_of digest)
       else None;
     os_Create := fun _ => false;
     zip_NewReader := fun data => if same_bytes data empty_zip then Some [] else None;
     StdoutPipe_ok := true;
     Start_ok := true;
     child_status := 0;
     os_RemoveAll_ok := true |}.


(** * Properties *)

(** ** The library models on examples *)

Example Split_ex1 : strings.Split "com.example" "." = ["com"; "example"].
Proof. reflexivity. Qed.

Example Split_ex2 : strings.Split "" "." = [""].
Proof. reflexivity. Qed.

Example Split_ex3 : strings.Split "a  b " " " = ["a"; ""; "b"; ""].
Proof. reflexivity. Qed.

Example SplitN_ex1 : strings.SplitN "g:a:v" ":" 2 = ["g"; "a:v"].
Proof. reflexivity. Qed.

Example SplitN_ex2 : strings.SplitN "bad-format" ":" 2 = ["bad-format"].
Proof. reflexivity. Qed.

Example Clean_ex1 : path.Clean "a//b/./c/../d" = "a/b/d".
Proof. reflexivity. Qed.

Example Clean_ex2 : path.Clean "/../a/.." = "/".
Proof. reflexivity. Qed.

Example Clean_ex3 : path.Clean "../../a/../../b" = "../../../b".
Proof. reflexivity. Qed.

Example Clean_ex4 : path.Clean "" = ".".
Proof. reflexivity. Qed.

Example Join_ex1 : path.Join ["/home/x"; ""; "libraries"] = "/home/x/libraries".
Proof. reflexivity. Qed.

Example Join_ex2 : path.Join [""; ""] = "".
Proof. reflexivity. Qed.


Example sha1_empty :
  sha1.Sum []
  = [xda; x39; xa3; xee; x5e; x6b; x4b; x0d; x32; x55;
     xbf; xef; x95; x60; x18; x90; xaf; xd8; x07; x09].
Proof. vm_compute. reflexivity. Qed.

Example sha1_two_blocks :
  sha1.Sum (bytes_of "abcdbcdecdefdefgefghfghighijhijkijkljklmklmnlmnomnopnopq")
  = [x84; x98; x3e; x44; x1c; x3b; xd2; x6e; xba; xae;
     x4a; xa1; xf9; x51; x29; xe5; xe5; x46; x70; xf1].
Proof. vm_compute. reflexivity. Qed.

(** ** Splitting and joining strings *)

Lemma cut_None_iff s sep : strings.cut s sep = None <-> strings.Contains s sep = false.
Proof.
  induction s as [| c s IH]; simpl.
  - split; reflexivity.
  - destruct (Ascii.eqb c sep).
    + split; discriminate.
    + destruct (strings.cut s sep) as [[before after] |].
      * split; [discriminate |]. intros H. apply IH in H. discriminate H.
      * split; [| reflexivity]. intros _. apply IH. reflexivity.
Qed.

Lemma cut_append s rest sep :
  strings.Contains s sep = false ->
  strings.cut (s +:+ String sep rest) sep = Some (s, rest).
Proof.
  induction s as [| c s IH]; simpl; intros H.
  - rewrite Ascii.eqb_refl. reflexivity.
  - destruct (Ascii.eqb c sep); [discriminate H |].
    rewrite (IH H). reflexivity.
Qed.

(** [SplitN(s, sep, 2)] has two pieces when [sep] occurs in [s], and one
    when it does not. *)
Lemma SplitN_2 s sep :
  strings.SplitN s sep 2
  = match strings.cut s sep with
    | Some (before, after) => [before; after]
    | None => [s]
    end.
Proof. simpl. destruct (strings.cut s sep) as [[before after] |]; reflexivity. Qed.

Lemma SplitN_2_length s sep :
  length (strings.SplitN s sep 2) = if strings.Contains s sep then 2%nat else 1%nat.
Proof.
  rewrite SplitN_2.
  destruct (strings.Contains s sep) eqn:E.
  - destruct (strings.cut s sep) as [[before after] |] eqn:C; [reflexivity |].
    apply cut_None_iff in C. congruence.
  - apply cut_None_iff in E. rewrite E. reflexivity.
Qed.

Lemma Split_whole s sep :
  strings.Contains s sep = false -> strings.Split s sep = [s].
Proof.
  induction s as [| c s IH]; simpl; intros H.
  - reflexivity.
  - destruct (Ascii.eqb c sep); [discriminate H |].
    rewrite (IH H). reflexivity.
Qed.

Lemma Split_append s rest sep :
  strings.Contains s sep = false ->
  strings.Split (s +:+ String sep rest) sep = s :: strings.Split rest sep.
Proof.
  induction s as [| c s IH]; simpl; intros H.
  - rewrite Ascii.eqb_refl. reflexivity.
  - destruct (Ascii.eqb c sep); [discriminate H |].
    rewrite (IH H). reflexivity.
Qed.

Lemma Split_nonempty s sep : strings.Split s sep <> [].
Proof.
  destruct s as [| c s]; simpl; [discriminate |].
  destruct (Ascii.eqb c sep); [discriminate |].
  destruct (strings.Split s sep); discriminate.
Qed.

(** Splitting at a separator loses nothing and leaves no separator in a
    piece: the pieces are exactly what lies between the separators. *)
Lemma Join_Split s sep : strings.Join (strings.Split s sep) (String sep "") = s.
Proof.
  induction s as [| c s IH]; [reflexivity |].
  cbn [strings.Split].
  destruct (strings.Split s sep) as [| piece pieces] eqn:E.
  { exfalso. exact (Split_nonempty s sep E). }
  destruct (Ascii.eqb_spec c sep) as [-> | _].
  - change (strings.Join ("" :: piece :: pieces) (String sep ""))
      with (String sep (strings.Join (piece :: pieces) (String sep ""))).
    rewrite IH. reflexivity.
  - rewrite <- IH. destruct pieces; reflexivity.
Qed.

Lemma Split_pieces s sep :
  Forall (fun piece => strings.Contains piece sep = false) (strings.Split s sep).
Proof.
  induction s as [| c s IH]; [repeat constructor |].
  cbn [strings.Split].
  destruct (Ascii.eqb c sep) eqn:Ec.
  - constructor; [reflexivity | exact IH].
  - destruct (strings.Split s sep) as [| piece pieces].
    + repeat constructor. simpl. rewrite Ec. reflexivity.
    + inversion IH as [| ? ? Hpiece Hpieces]; subst.
      constructor; [| exact Hpieces]. simpl. rewrite Ec. exact Hpiece.
Qed.

Lemma append_assoc (a b c : string) : (a +:+ b) +:+ c = a +:+ b +:+ c.
Proof.
  induction a as [| x a IH]; [reflexivity |].
  change (String x ((a +:+ b) +:+ c) = String x (a +:+ b +:+ c)).
  rewrite IH. reflexivity.
Qed.

Lemma append_nil_r s : s +:+ "" = s.
Proof.
  induction s as [| x s IH]; [reflexivity |].
  change (String x s +:+ "") with (String x (s +:+ "")). rewrite IH. reflexivity.
Qed.

Lemma append_nonempty c rest : c <> "" -> c +:+ rest <> "".
Proof. destruct c; [congruence | discriminate]. Qed.

Lemma Contains_append a b c :
  strings.Contains (a +:+ b) c = strings.Contains a c || strings.Contains b c.
Proof.
  induction a as [| x a IH]; [reflexivity |].
  change (String x a +:+ b) with (String x (a +:+ b)). simpl.
  destruct (Ascii.eqb x c); [reflexivity | exact IH].
Qed.

Lemma Split_app_sep a b sep :
  strings.Split (a +:+ String sep b) sep = strings.Split a sep ++ strings.Split b sep.
Proof.
  induction a as [| x a IH].
  - simpl. rewrite Ascii.eqb_refl. reflexivity.
  - change (String x a +:+ String sep b) with (String x (a +:+ String sep b)).
    cbn [strings.Split]. rewrite IH.
    destruct (Ascii.eqb x sep); [reflexivity |].
    destruct (strings.Split a sep) as [| piece pieces] eqn:E; [| reflexivity].
    destruct (Split_nonempty a sep E).
Qed.

Lemma Split_Join cs sep :
  cs <> [] ->
  Forall (fun c => strings.Contains c sep = false) cs ->
  strings.Split (strings.Join cs (String sep "")) sep = cs.
Proof.
  intros Hne H. induction H as [| c rest Hc Hrest IH]; [congruence |].
  destruct rest as [| c' rest].
  - simpl. apply Split_whole. exact Hc.
  - change (strings.Join (c :: c' :: rest) (String sep ""))
      with (c +:+ String sep (strings.Join (c' :: rest) (String sep ""))).
    rewrite (Split_append c _ sep Hc), IH by discriminate. reflexivity.
Qed.

Lemma Join_app xs ys sep :
  xs <> [] -> ys <> [] ->
  strings.Join (xs ++ ys) sep = strings.Join xs sep +:+ sep +:+ strings.Join ys sep.
Proof.
  intros Hx Hy. induction xs as [| x xs IH]; [congruence |].
  destruct xs as [| x' xs].
  - destruct ys; [congruence | reflexivity].
  - change (strings.Join ((x :: x' :: xs) ++ ys) sep)
      with (x +:+ sep +:+ strings.Join ((x' :: xs) ++ ys) sep).
    rewrite IH by discriminate.
    change (strings.Join (x :: x' :: xs) sep)
      with (x +:+ sep +:+ strings.Join (x' :: xs) sep).
    rewrite !append_assoc. reflexivity.
Qed.

Lemma Join_head c cs sep :
  exists rest, strings.Join (c :: cs) sep = c +:+ rest.
Proof.
  destruct cs as [| c' cs].
  - exists "". simpl. induction c as [| x c IH]; [reflexivity |].
    change (String x c +:+ "") with (String x (c +:+ "")). rewrite <- IH. reflexivity.
  - eexists. reflexivity.
Qed.

Lemma Join_nonempty c cs sep : c <> "" -> strings.Join (c :: cs) sep <> "".
Proof.
  intros Hc. destruct (Join_head c cs sep) as [rest ->].
  apply append_nonempty. exact Hc.
Qed.

Lemma HasPrefix_starts_with s p : strings.HasPrefix s p = true <-> starts_with s p.
Proof.
  unfold starts_with. revert s. induction p as [| a p IH]; intros s.
  - simpl. split; [| reflexivity]. intros _. exists s. reflexivity.
  - destruct s as [| b s]; simpl.
    + split; [discriminate |]. intros [rest H]. discriminate H.
    + destruct (Ascii.eqb_spec a b) as [-> | Hne].
      * rewrite IH. split; intros [rest H]; exists rest.
        -- rewrite H. reflexivity.
        -- change (String b p +:+ rest) with (String b (p +:+ rest)) in H.
           inversion H. reflexivity.
      * split; [discriminate |]. intros [rest H].
        change (String a p +:+ rest) with (String a (p +:+ rest)) in H.
        inversion H. congruence.
Qed.

(** ** Cleaning paths *)

Lemma clean_step_plain rooted out e :
  plain e -> path.clean_step rooted out e = e :: out.
Proof.
  intros (H1 & H2 & H3 & _). unfold path.clean_step.
  apply String.eqb_neq in H1, H2, H3. rewrite H1, H2, H3. reflexivity.
Qed.

Lemma fold_clean_plain rooted cs out :
  Forall plain cs ->
  fold_left (path.clean_step rooted) cs out = rev cs ++ out.
Proof.
  intros H. revert out. induction H as [| c rest Hc _ IH]; intros out; [reflexivity |].
  simpl. rewrite clean_step_plain by exact Hc. rewrite IH, <- app_assoc. reflexivity.
Qed.

Lemma replicate_snoc {A} k (x : A) l : replicate k x ++ x :: l = x :: replicate k x ++ l.
Proof. induction k as [| k IH]; [reflexivity |]. simpl. rewrite IH. reflexivity. Qed.

Lemma fold_clean_dotdots k out :
  out = [] \/ (exists rest, out = ".." :: rest) ->
  fold_left (path.clean_step false) (replicate k "..") out = replicate k ".." ++ out.
Proof.
  revert out. induction k as [| k IH]; intros out Hout; [reflexivity |].
  cbn [replicate fold_left].
  assert (Hstep : path.clean_step false out ".." = ".." :: out).
  { destruct Hout as [-> | [rest ->]]; reflexivity. }
  rewrite Hstep, IH by (right; eexists; reflexivity).
  rewrite replicate_snoc. reflexivity.
Qed.

Lemma cleaned_nil rooted : cleaned rooted [].
Proof. exists [], 0%nat. repeat split. constructor. Qed.

(** Cleaning keeps the shape, element by element. *)
Lemma cleaned_step rooted out e :
  cleaned rooted out ->
  strings.Contains e "/" = false ->
  cleaned rooted (path.clean_step rooted out e).
Proof.
  intros (plains & k & -> & Hp & Hk) He. unfold path.clean_step.
  destruct (String.eqb_spec e "") as [_ | H1]; [exists plains, k; auto |].
  destruct (String.eqb_spec e ".") as [_ | H2]; [exists plains, k; auto |].
  destruct (String.eqb_spec e "..") as [-> | H3].
  - destruct plains as [| p ps].
    + destruct k as [| k]; simpl.
      * destruct rooted; [apply cleaned_nil |].
        exists [], 1%nat. repeat split; [constructor | discriminate].
      * exists [], (S (S k)). repeat split; [constructor |].
        intros Hr. specialize (Hk Hr). discriminate Hk.
    + inversion Hp as [| ? ? Hplain Hps]; subst. simpl.
      destruct Hplain as (_ & _ & Hdd & _).
      apply String.eqb_neq in Hdd. rewrite Hdd.
      exists ps, k. auto.
  - exists (e :: plains), k. repeat split; [| exact Hk].
    constructor; [| exact Hp]. repeat split; assumption.
Qed.

Lemma cleaned_fold rooted es out :
  Forall (fun e => strings.Contains e "/" = false) es ->
  cleaned rooted out ->
  cleaned rooted (fold_left (path.clean_step rooted) es out).
Proof.
  intros H. revert out. induction H as [| e rest He _ IH]; intros out Hout; [exact Hout |].
  simpl. apply IH. apply cleaned_step; assumption.
Qed.

Lemma elements_cleaned p : cleaned (path.is_rooted p) (rev (path.elements p)).
Proof.
  unfold path.elements. rewrite rev_involutive.
  apply cleaned_fold; [apply Split_pieces | apply cleaned_nil].
Qed.

Lemma rev_replicate {A} k (x : A) : rev (replicate k x) = replicate k x.
Proof.
  induction k as [| k IH]; [reflexivity |].
  simpl. rewrite IH, (replicate_snoc k x []), app_nil_r. reflexivity.
Qed.

(** Cleaning a cleaned path again changes nothing. *)
Lemma cleaned_refold rooted out :
  cleaned rooted out ->
  fold_left (path.clean_step rooted) (rev out) [] = out.
Proof.
  intros (plains & k & -> & Hp & Hk).
  rewrite rev_app_distr, rev_replicate, fold_left_app.
  assert (Hdots : fold_left (path.clean_step rooted) (replicate k "..") []
                  = replicate k "..").
  { destruct rooted.
    - rewrite (Hk eq_refl). reflexivity.
    - rewrite fold_clean_dotdots by (left; reflexivity). apply app_nil_r. }
  rewrite Hdots, fold_clean_plain by (apply Forall_rev; exact Hp).
  rewrite rev_involutive. reflexivity.
Qed.

Lemma cleaned_pieces rooted out :
  cleaned rooted out ->
  Forall (fun c => c <> "" /\ strings.Contains c "/" = false) out.
Proof.
  intros (plains & k & -> & Hp & _). apply Forall_app. split.
  - eapply Forall_impl; [exact Hp |]. intros c (H1 & _ & _ & H4). auto.
  - apply Forall_replicate. split; [discriminate | reflexivity].
Qed.

Lemma is_rooted_append c rest :
  c <> "" -> strings.Contains c "/" = false -> path.is_rooted (c +:+ rest) = false.
Proof.
  destruct c as [| x c]; [congruence |]. intros _ H. simpl in H.
  change (String x c +:+ rest) with (String x (c +:+ rest)). simpl.
  destruct (Ascii.eqb x "/"); [discriminate H | reflexivity].
Qed.

Lemma is_rooted_Join c cs rest :
  c <> "" -> strings.Contains c "/" = false ->
  path.is_rooted (strings.Join (c :: cs) "/" +:+ rest) = false.
Proof.
  intros H1 H2. destruct (Join_head c cs "/") as [tail ->].
  rewrite append_assoc. apply is_rooted_append; assumption.
Qed.

Lemma plain_pieces cs :
  Forall plain cs -> Forall (fun c => strings.Contains c "/" = false) cs.
Proof.
  intros H. eapply Forall_impl; [exact H |]. intros c (_ & _ & _ & Hc). exact Hc.
Qed.

(** A path made of plain elements is clean already. *)
Lemma Clean_plain cs :
  cs <> [] -> Forall plain cs ->
  path.Clean (strings.Join cs "/") = strings.Join cs "/".
Proof.
  intros Hne Hp. unfold path.Clean, path.elements.
  assert (Hr : path.is_rooted (strings.Join cs "/") = false).
  { destruct cs as [| c cs]; [congruence |].
    inversion Hp as [| ? ? (Hc & _ & _ & Hs) _]; subst.
    rewrite <- (append_nil_r (strings.Join (c :: cs) "/")).
    apply is_rooted_Join; assumption. }
  rewrite Hr, (Split_Join cs "/" Hne (plain_pieces cs Hp)).
  rewrite fold_clean_plain by exact Hp.
  rewrite app_nil_r, rev_involutive.
  destruct cs; [congruence | reflexivity].
Qed.

(** Plain elements appended to a cleaned path that has elements stay as
    they are written. *)
Lemma Clean_extend X cs :
  path.elements X <> [] -> cs <> [] -> Forall plain cs ->
  path.Clean (path.Clean X +:+ "/" +:+ strings.Join cs "/")
  = path.Clean X +:+ "/" +:+ strings.Join cs "/".
Proof.
  intros Hout Hne Hp.
  pose proof (elements_cleaned X) as Hc.
  pose proof (cleaned_pieces _ _ Hc) as Hpieces.
  apply Forall_rev in Hpieces. rewrite rev_involutive in Hpieces.
  pose proof (cleaned_refold _ _ Hc) as Hrefold. rewrite rev_involutive in Hrefold.
  assert (Hsplit : strings.Split (strings.Join (path.elements X) "/") "/"
                   = path.elements X).
  { apply Split_Join; [exact Hout |].
    eapply Forall_impl; [exact Hpieces |]. intros c [_ H]. exact H. }
  assert (Hcs : strings.Split (strings.Join cs "/") "/" = cs).
  { apply Split_Join; [exact Hne | apply plain_pieces; exact Hp]. }
  assert (Hfold : forall pre,
            fold_left (path.clean_step (path.is_rooted X)) pre [] = [] ->
            rev (fold_left (path.clean_step (path.is_rooted X))
                   (pre ++ path.elements X ++ cs) [])
            = path.elements X ++ cs).
  { intros pre Hpre. rewrite !fold_left_app, Hpre, Hrefold.
    rewrite fold_clean_plain by exact Hp.
    rewrite rev_app_distr, !rev_involutive. reflexivity. }
  unfold path.Clean at 2 3. unfold path.render.
  destruct (path.is_rooted X) eqn:Hr.
  - change ("/" +:+ strings.Join (path.elements X) "/")
      with (String "/" (strings.Join (path.elements X) "/")).
    set (Y := String "/" (strings.Join (path.elements X) "/")
              +:+ "/" +:+ strings.Join cs "/").
    unfold path.Clean, path.elements at 1.
    assert (HY : strings.Split Y "/" = [""] ++ path.elements X ++ cs).
    { subst Y.
      change (String "/" (strings.Join (path.elements X) "/") +:+ "/"
              +:+ strings.Join cs "/")
        with (String "/" (strings.Join (path.elements X) "/"
                          +:+ String "/" (strings.Join cs "/"))).
      cbn [strings.Split]. rewrite Ascii.eqb_refl.
      rewrite Split_app_sep, Hsplit, Hcs. reflexivity. }
    change (path.is_rooted Y) with true. rewrite HY.
    rewrite (Hfold [""] eq_refl). unfold path.render.
    rewrite Join_app by assumption.
    subst Y. reflexivity.
  - destruct (path.elements X) as [| o out] eqn:Eout; [congruence |].
    set (Y := strings.Join (o :: out) "/" +:+ "/" +:+ strings.Join cs "/").
    unfold path.Clean, path.elements at 1.
    assert (HrY : path.is_rooted Y = false).
    { inversion Hpieces as [| ? ? [Ho1 Ho2] _]; subst.
      apply is_rooted_Join; assumption. }
    assert (HY : strings.Split Y "/" = [] ++ (o :: out) ++ cs).
    { subst Y.
      change ("/" +:+ strings.Join cs "/") with (String "/" (strings.Join cs "/")).
      rewrite Split_app_sep, Hsplit, Hcs. reflexivity. }
    rewrite HrY, HY, (Hfold [] eq_refl). unfold path.render.
    rewrite Join_app by (assumption || discriminate).
    reflexivity.
Qed.

Lemma elements_last m c : plain c -> path.elements (m +:+ String "/" c) <> [].
Proof.
  intros Hc. unfold path.elements.
  destruct Hc as (H1 & H2 & H3 & H4).
  rewrite Split_app_sep, (Split_whole c "/" H4), fold_left_app. simpl.
  rewrite clean_step_plain by (repeat split; assumption).
  simpl. intros E. apply app_eq_nil in E as [_ E]. discriminate E.
Qed.

Lemma elements_single c : plain c -> path.elements c <> [].
Proof.
  intros Hc. unfold path.elements.
  destruct Hc as (H1 & H2 & H3 & H4).
  rewrite (Split_whole c "/" H4). simpl.
  rewrite clean_step_plain by (repeat split; assumption).
  discriminate.
Qed.

Lemma Clean_nonempty X : path.elements X <> [] -> path.Clean X <> "".
Proof.
  intros Hout. unfold path.Clean, path.render.
  destruct (path.is_rooted X) eqn:Hr; [discriminate |].
  pose proof (elements_cleaned X) as Hc.
  apply cleaned_pieces, Forall_rev in Hc. rewrite rev_involutive in Hc.
  destruct (path.elements X) as [| o out]; [congruence |].
  inversion Hc as [| ? ? [Ho _] _]; subst.
  apply Join_nonempty. exact Ho.
Qed.

(** A directory joined with a plain element is a cleaned path that has
    elements, whatever the directory. *)
Lemma Join_plain_last dir c :
  plain c ->
  exists X, path.Join [dir; c] = path.Clean X /\ path.elements X <> [].
Proof.
  intros Hc. pose proof Hc as (Hne & _). unfold path.Join.
  destruct (decide (dir = "")) as [-> | Hdir].
  - exists c. split; [| apply elements_single; exact Hc].
    rewrite filter_cons_False by (intros H; apply H; reflexivity).
    rewrite filter_cons_True by exact Hne. reflexivity.
  - exists (dir +:+ String "/" c). split; [| apply elements_last; exact Hc].
    rewrite filter_cons_True by exact Hdir.
    rewrite filter_cons_True by exact Hne. reflexivity.
Qed.

Lemma filter_plain cs : Forall plain cs -> filter (fun e : string => e <> "") cs = cs.
Proof.
  intros H. induction H as [| c rest (Hc & _) _ IH]; [reflexivity |].
  rewrite filter_cons_True by exact Hc. rewrite IH. reflexivity.
Qed.

(** ** The equations of the monad and of the state *)

(** The monad's equations. *)
Lemma bind_ret {A B} (a : A) (k : A -> M B) st : (let* x := ret a in k x) st = k a st.
Proof. reflexivity. Qed.

Lemma bind_fatal {A B} why (k : A -> M B) st :
  (let* x := fatal why in k x) st = (st, Exit 0 why).
Proof. reflexivity. Qed.

Lemma bind_Ok {A B} (c : M A) (k : A -> M B) st st' a :
  c st = (st', Ok a) -> (let* x := c in k x) st = k a st'.
Proof. intros H. unfold bind. rewrite H. reflexivity. Qed.

Lemma bind_Exit {A B} (c : M A) (k : A -> M B) st st' code why :
  c st = (st', Exit code why) -> (let* x := c in k x) st = (st', Exit code why).
Proof. intros H. unfold bind. rewrite H. reflexivity. Qed.

Lemma bind_Return {A B} (c : M A) (k : A -> M B) st st' why :
  c st = (st', Return why) -> (let* x := c in k x) st = (st', Return why).
Proof. intros H. unfold bind. rewrite H. reflexivity. Qed.


Lemma with_effects_app st es1 es2 :
  with_effects (with_effects st es1) es2 = with_effects st (es1 ++ es2).
Proof. unfold with_effects. simpl. rewrite app_assoc. reflexivity. Qed.

Lemma with_effects_nil st : with_effects st [] = st.
Proof. destruct st. unfold with_effects. simpl. rewrite app_nil_r. reflexivity. Qed.

(** ** RuleEvaluator *)

Lemma rule_matches_applies osStr rule :
  rule_matches osStr rule = true <-> applies osStr rule.
Proof.
  unfold rule_matches, applies.
  rewrite orb_true_iff, !String.eqb_eq. reflexivity.
Qed.

Lemma rule_matches_not_applies osStr rule :
  rule_matches osStr rule = false <-> ~ applies osStr rule.
Proof.
  rewrite <- rule_matches_applies. destruct (rule_matches osStr rule); split; congruence.
Qed.

Lemma action_allowed rule :
  String.eqb (Rule_Action rule) allow = bool_decide (Rule_Action rule = allow).
Proof.
  destruct (String.eqb_spec (Rule_Action rule) allow) as [E | E].
  - symmetry. apply bool_decide_eq_true. exact E.
  - symmetry. apply bool_decide_eq_false. exact E.
Qed.

Lemma rule_step_skip osStr b rule :
  ~ applies osStr rule -> rule_step osStr b rule = b.
Proof.
  intros H. unfold rule_step. apply rule_matches_not_applies in H. rewrite H. reflexivity.
Qed.

(** Rules that do not apply leave the flag as it is. *)
Lemma fold_skips osStr rules b :
  Forall (fun r => ~ applies osStr r) rules ->
  fold_left (rule_step osStr) rules b = b.
Proof.
  intros H. revert b. induction H as [| r rest Hr _ IH]; intros b; simpl.
  - reflexivity.
  - rewrite rule_step_skip by exact Hr. apply IH.
Qed.

(** The last rule that applies decides, whatever the flag was. *)
Lemma fold_last_applies osStr before rule after b :
  applies osStr rule ->
  Forall (fun r => ~ applies osStr r) after ->
  fold_left (rule_step osStr) (before ++ rule :: after) b
  = bool_decide (Rule_Action rule = allow).
Proof.
  intros Hr Hafter. rewrite fold_left_app. simpl.
  rewrite fold_skips by exact Hafter.
  unfold rule_step. apply rule_matches_applies in Hr. rewrite Hr.
  apply action_allowed.
Qed.

(** C1. With no rules the dependency is allowed. Otherwise the last rule,
    in list order, whose platform is the current platform or empty decides:
    the dependency is allowed exactly when that rule's action is [allow];
    rules for other platforms change nothing; and when no rule applies the
    dependency is not allowed. On the rules [allow ""; deny "windows"] the
    answer is deny on windows and allow on linux. *)
Theorem rules_last_match_wins (osStr : string) :
  rules_allowed osStr [] = true
  /\ (forall before r after,
        applies osStr r ->
        Forall (fun r' => ~ applies osStr r') after ->
        rules_allowed osStr (before ++ r :: after)
        = bool_decide (Rule_Action r = allow))
  /\ (forall before r after,
        ~ applies osStr r ->
        before ++ after <> [] ->
        rules_allowed osStr (before ++ r :: after)
        = rules_allowed osStr (before ++ after))
  /\ (forall rules,
        rules <> [] ->
        Forall (fun r => ~ applies osStr r) rules ->
        rules_allowed osStr rules = false)
  /\ rules_allowed "windows" [rule "allow" ""; rule "deny" "windows"] = false
  /\ rules_allowed "linux" [rule "allow" ""; rule "deny" "windows"] = true.
Proof.
  split; [reflexivity |].
  split.
  { intros before r after Hr Hafter. unfold rules_allowed.
    apply fold_last_applies; assumption. }
  split.
  { intros before r after Hr Hne. unfold rules_allowed.
    assert (Hlen : Nat.eqb (length (before ++ r :: after)) 0
                   = Nat.eqb (length (before ++ after)) 0).
    { destruct before; simpl.
      - destruct after; [exfalso; apply Hne; reflexivity | reflexivity].
      - reflexivity. }
    rewrite Hlen, !fold_left_app. simpl.
    rewrite rule_step_skip by exact Hr. reflexivity. }
  split.
  { intros rules Hne Hall. unfold rules_allowed.
    rewrite fold_skips by exact Hall.
    destruct rules; [congruence | reflexivity]. }
  split; reflexivity.
Qed.

Lemma rules_last_match_wins_witness :
  rules_allowed "osx"
    ([rule "deny" ""] ++ rule "allow" "osx" :: [rule "deny" "linux"])
  = bool_decide (Rule_Action (rule "allow" "osx") = allow).
Proof.
  apply (proj1 (proj2 (rules_last_match_wins "osx"))).
  - left. reflexivity.
  - repeat constructor. intros [H | H]; discriminate H.
Defined.

Lemma rule_step_same_but_version osStr b r1 r2 :
  same_but_version r1 r2 -> rule_step osStr b r1 = rule_step osStr b r2.
Proof.
  intros [Haction Hname]. unfold rule_step, rule_matches.
  rewrite Haction, Hname. reflexivity.
Qed.

(** C9. Rule evaluation never reads a rule's version field: two rule lists
    that agree position by position on action and platform name, whatever
    their versions, get the same answer on every platform. *)
Theorem rules_ignore_version (rules1 rules2 : list Rule) :
  Forall2 same_but_version rules1 rules2 ->
  forall osStr, rules_allowed osStr rules1 = rules_allowed osStr rules2.
Proof.
  intros H osStr. unfold rules_allowed.
  rewrite (Forall2_length _ _ _ H).
  generalize (Nat.eqb (length rules2) 0) as b.
  induction H as [| r1 r2 rest1 rest2 Hr _ IH]; intros b; simpl.
  - reflexivity.
  - rewrite (rule_step_same_but_version osStr b r1 r2 Hr). apply IH.
Qed.

Lemma rules_ignore_version_witness :
  rules_allowed "osx" [versioned "allow" "" ""; versioned "deny" "osx" "^10\\.5\\.\\d$"]
  = rules_allowed "osx" [versioned "allow" "" "6.1"; versioned "deny" "osx" ""].
Proof.
  apply rules_ignore_version.
  repeat constructor.
Defined.

(** ** ArgumentSubstitutor *)

(** The in-place loop rewrites the part of the slice it has not visited
    yet, one token at a time, and nothing else. *)
Lemma substitute_loop_map ctx (todo visited : list string) :
  substitute_loop ctx (length todo) (length visited) (visited ++ todo)
  = visited ++ map (token_value ctx) todo.
Proof.
  revert visited. induction todo as [| arg todo IH]; intros visited.
  - reflexivity.
  - cbn [length substitute_loop map].
    rewrite (list_lookup_middle visited todo arg (length visited) eq_refl).
    assert (Hnext : (match replacement ctx arg with
                     | Some v => <[length visited := v]> (visited ++ arg :: todo)
                     | None => visited ++ arg :: todo
                     end) = (visited ++ [token_value ctx arg]) ++ todo).
    { unfold token_value. rewrite <- app_assoc.
      destruct (replacement ctx arg) as [v |]; [| reflexivity].
      replace (length visited) with (length visited + 0)%nat at 1 by lia.
      rewrite insert_app_r. reflexivity. }
    rewrite Hnext.
    replace (S (length visited)) with (length (visited ++ [token_value ctx arg]))
      by (rewrite length_app; simpl; lia).
    rewrite IH, <- app_assoc. reflexivity.
Qed.

Lemma substitute_map ctx template :
  substitute ctx template = map (token_value ctx) (strings.Split template " ").
Proof.
  unfold substitute. apply (substitute_loop_map ctx (strings.Split template " ") []).
Qed.

Lemma replacement_other ctx arg :
  arg <> "${auth_player_name}" -> arg <> "${auth_session}" ->
  arg <> "${version_name}" -> arg <> "${game_directory}" ->
  arg <> "${game_assets}" ->
  replacement ctx arg = None.
Proof.
  intros H1 H2 H3 H4 H5. unfold replacement.
  apply String.eqb_neq in H1, H2, H3, H4, H5.
  rewrite H1, H2, H3, H4, H5. reflexivity.
Qed.

(** C10. Substitution rewrites token by token: the output has as many
    tokens as the template split at spaces, the token at each position is a
    fixed function of the input token at that position, and a token that
    is not exactly one of the five placeholders, such as
    [x${auth_player_name}], stays as it is. *)
Theorem substitution_is_pointwise (ctx : Context) (template : string) :
  let tokens := strings.Split template " " in
  length (substitute ctx template) = length tokens
  /\ (forall i, substitute ctx template !! i = token_value ctx <$> tokens !! i)
  /\ (forall i arg,
        tokens !! i = Some arg ->
        arg <> "${auth_player_name}" -> arg <> "${auth_session}" ->
        arg <> "${version_name}" -> arg <> "${game_directory}" ->
        arg <> "${game_assets}" ->
        substitute ctx template !! i = Some arg)
  /\ substitute ctx "x${auth_player_name}" = ["x${auth_player_name}"]
  /\ substitute (Part000.context
                   {| Profiles := ∅; SelectedProfile := ""; Users := ∅; SelectedUser := "" |}
                   "/home/x/game")
       "${game_directory}/x ${game_directory}"
     = ["${game_directory}/x"; "/home/x/game"].
Proof.
  intros tokens. rewrite substitute_map. fold tokens.
  split; [apply length_map |].
  split; [intros i; apply list_lookup_fmap |].
  split; [| split; reflexivity].
  intros i arg Hi H1 H2 H3 H4 H5.
  change (map (token_value ctx) tokens) with (token_value ctx <$> tokens).
  rewrite list_lookup_fmap, Hi. cbn [fmap option_fmap option_map].
  unfold token_value. rewrite (replacement_other ctx arg H1 H2 H3 H4 H5).
  reflexivity.
Qed.

Lemma substitution_is_pointwise_witness :
  substitute alice "--user ${auth_player_name} --v=${version_name}" !! 2%nat
  = Some "--v=${version_name}".
Proof.
  apply (proj1 (proj2 (proj2 (substitution_is_pointwise alice
           "--user ${auth_player_name} --v=${version_name}"))) 2%nat);
    [reflexivity | discriminate ..].
Defined.

(** C5, as the code has it. The template is cut at every space character
    and at nothing else (a tab or a line feed does not separate, and two
    spaces in a row enclose an empty token); each token that is one of the
    five placeholders is replaced by the player name,
    [token:]session[:]user, the version id, the install directory or
    install/assets/virtual/legacy; every other token is kept. *)
Theorem substitution_splits_at_spaces (ctx : Context) (template : string) :
  let tokens := strings.Split template " " in
  substitute ctx template = map (token_value ctx) tokens
  /\ strings.Join tokens " " = template
  /\ Forall (fun token => strings.Contains token " " = false) tokens
  /\ token_value ctx "${auth_player_name}" = playerName ctx
  /\ token_value ctx "${auth_session}"
     = "token:" +:+ sessionToken ctx +:+ ":" +:+ selectedUserId ctx
  /\ token_value ctx "${version_name}" = selectedVersionId ctx
  /\ token_value ctx "${game_directory}" = installDirectory ctx
  /\ token_value ctx "${game_assets}"
     = path.Join [installDirectory ctx; "assets"; "virtual"; "legacy"]
  /\ (forall arg,
        arg <> "${auth_player_name}" -> arg <> "${auth_session}" ->
        arg <> "${version_name}" -> arg <> "${game_directory}" ->
        arg <> "${game_assets}" ->
        token_value ctx arg = arg)
  /\ token_value alice "${game_assets}" = "/home/x/game/assets/virtual/legacy"
  /\ substitute alice "--user ${auth_player_name}  --dir ${game_directory}"
     = ["--user"; "Alice"; ""; "--dir"; "/home/x/game"].
Proof.
  intros tokens.
  split; [apply substitute_map |].
  split; [apply (Join_Split template " ") |].
  split; [apply Split_pieces |].
  do 5 (split; [reflexivity |]).
  split; [| split; reflexivity].
  intros arg H1 H2 H3 H4 H5. unfold token_value.
  rewrite (replacement_other ctx arg H1 H2 H3 H4 H5). reflexivity.
Qed.

Lemma substitution_splits_at_spaces_witness :
  token_value alice "${unknown_token}" = "${unknown_token}".
Proof.
  apply (proj2 (proj2 (proj2 (proj2 (proj2 (proj2 (proj2 (proj2
           (substitution_splits_at_spaces alice ""))))))))); discriminate.
Defined.

(** C5, as the specification words it, fails: with a tab between two
    tokens the code sees one token and replaces nothing, and with two
    spaces in a row the code passes an empty argument on. *)
Lemma substitution_not_on_whitespace :
  substitute alice ("--user" +:+ String TAB "${auth_player_name}")
  = ["--user" +:+ String TAB "${auth_player_name}"]
  /\ substitute_on_whitespace alice ("--user" +:+ String TAB "${auth_player_name}")
     = ["--user"; "Alice"]
  /\ substitute alice ("--user" +:+ String TAB "${auth_player_name}")
     <> substitute_on_whitespace alice ("--user" +:+ String TAB "${auth_player_name}")
  /\ substitute alice "--user  ${auth_player_name}"
     <> substitute_on_whitespace alice "--user  ${auth_player_name}".
Proof.
  split; [reflexivity |]. split; [reflexivity |]. split; discriminate.
Qed.

(** ** CoordinateResolver *)

Lemma split_coordinate_colon name st :
  strings.Contains name ":" = true ->
  exists group rest,
    strings.cut name ":" = Some (group, rest)
    /\ split_coordinate name st
       = (st, Ok (strings.Split rest ":",
                  strings.Split group "." ++ strings.Split rest ":")).
Proof.
  intros H. unfold split_coordinate.
  destruct (strings.cut name ":") as [[group rest] |] eqn:C.
  - exists group, rest. split; [reflexivity |].
    unfold bind, fail. rewrite SplitN_2, C. reflexivity.
  - apply cut_None_iff in C. congruence.
Qed.

Lemma split_coordinate_no_colon name st :
  strings.Contains name ":" = false ->
  split_coordinate name st = (st, Exit 0 (UnknownLibraryFormat name)).
Proof.
  intros H. unfold split_coordinate, bind, fail.
  rewrite SplitN_2. apply cut_None_iff in H. rewrite H. reflexivity.
Qed.

Lemma ordinary_filename_av artifact version :
  ordinary_filename [artifact; version] = artifact +:+ "-" +:+ version +:+ ".jar".
Proof.
  unfold ordinary_filename, jarExt. cbn [strings.Join].
  rewrite !append_assoc. reflexivity.
Qed.

Lemma native_filename_av artifact version classifier :
  native_filename [artifact; version] classifier
  = artifact +:+ "-" +:+ version +:+ "-" +:+ classifier +:+ ".jar".
Proof.
  unfold native_filename, jarExt. cbn [strings.Join].
  rewrite !append_assoc. reflexivity.
Qed.

Lemma split_coordinate_gav group artifact version st :
  strings.Contains group ":" = false ->
  strings.Contains artifact ":" = false ->
  strings.Contains version ":" = false ->
  split_coordinate (group +:+ ":" +:+ artifact +:+ ":" +:+ version) st
  = (st, Ok ([artifact; version], strings.Split group "." ++ [artifact; version])).
Proof.
  intros Hg Ha Hv. unfold split_coordinate, bind, fail.
  rewrite SplitN_2.
  change (":" +:+ artifact +:+ ":" +:+ version)
    with (String ":" (artifact +:+ String ":" version)).
  rewrite (cut_append group _ ":" Hg).
  cbn [length Nat.eqb negb ret nth].
  rewrite (Split_append artifact version ":" Ha), (Split_whole version ":" Hv).
  reflexivity.
Qed.

Lemma libraryDir_plain : plain libraryDir.
Proof. repeat split; discriminate. Qed.

(** Below a library root, a resolved path whose elements are all plain
    is the root, a slash, and the elements separated by slashes. *)
Lemma library_path_literal minecraftDir dirs filename :
  Forall plain (dirs ++ [filename]) ->
  library_path minecraftDir dirs filename
  = path.Join [minecraftDir; libraryDir] +:+ "/"
    +:+ strings.Join (dirs ++ [filename]) "/".
Proof.
  intros Hp. unfold library_path.
  assert (Hne : dirs ++ [filename] <> []).
  { intros E. apply app_eq_nil in E as [_ E]. discriminate E. }
  revert Hp Hne. generalize (dirs ++ [filename]). intros cs Hp Hne.
  assert (Hinner : path.Join cs = strings.Join cs "/").
  { unfold path.Join. rewrite (filter_plain cs Hp).
    destruct cs as [| c rest]; [congruence |].
    apply Clean_plain; assumption. }
  rewrite Hinner.
  destruct (Join_plain_last minecraftDir libraryDir libraryDir_plain) as (X & HX & Hout).
  rewrite HX. unfold path.Join at 1.
  assert (HP : strings.Join cs "/" <> "").
  { destruct cs as [| c rest]; [congruence |].
    inversion Hp as [| ? ? (Hc & _) _]; subst. apply Join_nonempty. exact Hc. }
  rewrite filter_cons_True by (apply Clean_nonempty; exact Hout).
  rewrite filter_cons_True by exact HP.
  rewrite filter_nil.
  change (strings.Join [path.Clean X; strings.Join cs "/"] "/")
    with (path.Clean X +:+ "/" +:+ strings.Join cs "/").
  apply Clean_extend; assumption.
Qed.

(** A file name made from a plain artifact is plain. *)
Lemma filename_plain artifact rest :
  plain artifact ->
  strings.Contains rest "/" = false ->
  plain (artifact +:+ "-" +:+ rest).
Proof.
  intros (H1 & _ & _ & H4) Hrest. repeat split.
  - apply append_nonempty. exact H1.
  - destruct artifact as [| x [| y a]]; [congruence | discriminate | discriminate].
  - destruct artifact as [| x [| y a]]; [congruence | discriminate |].
    destruct a; discriminate.
  - rewrite Contains_append, H4. simpl. exact Hrest.
Qed.

(** ** SignatureVerifier *)

Lemma be_bytes_length k x : length (sha1.be_bytes k x) = k.
Proof. unfold sha1.be_bytes. rewrite length_map, length_rev, length_seq. reflexivity. Qed.

(** The digest always has 20 bytes. *)
Lemma Sum_length msg : length (sha1.Sum msg) = 20%nat.
Proof.
  unfold sha1.Sum.
  destruct (sha1.blocks _ _ _) as [[[[h0 h1] h2] h3] h4].
  rewrite !length_app, !be_bytes_length. reflexivity.
Qed.

Lemma hex_high b : byte_at hex (Z.shiftr (sha1.Z_of_byte b) 4) = hex_digit (high_nibble b).
Proof. destruct b; reflexivity. Qed.

Lemma hex_low b : byte_at hex (Z.land (sha1.Z_of_byte b) 15) = hex_digit (low_nibble b).
Proof. destruct b; reflexivity. Qed.

Lemma byte_neq_false x y : byte_neq x y = false <-> x = y.
Proof.
  unfold byte_neq. rewrite negb_false_iff. split.
  - apply Byte.byte_dec_bl.
  - apply Byte.byte_dec_lb.
Qed.

Lemma byte_at_lookup (s : list byte) (i : nat) x :
  (i < length s)%nat -> byte_at s (Z.of_nat i) = x <-> s !! i = Some x.
Proof.
  intros Hi. unfold byte_at. rewrite Nat2Z.id, nth_lookup.
  destruct (lookup_lt_is_Some_2 s i Hi) as [y Hy]. rewrite Hy. simpl.
  split; congruence.
Qed.

(** One comparison of the loop, in the specification's words. *)
Lemma mismatch_false signature n b :
  (2 * n + 1 < length signature)%nat ->
  mismatch signature n b = false
  <-> signature !! (2 * n)%nat = Some (hex_digit (high_nibble b))
      /\ signature !! (2 * n + 1)%nat = Some (hex_digit (low_nibble b)).
Proof.
  intros Hn. unfold mismatch.
  rewrite orb_false_iff, !byte_neq_false, hex_high, hex_low.
  rewrite Z.shiftl_mul_pow2 by lia.
  replace (Z.of_nat n * 2 ^ 1) with (Z.of_nat (2 * n)) by lia.
  replace (Z.of_nat (2 * n) + 1) with (Z.of_nat (2 * n + 1)) by lia.
  rewrite <- (byte_at_lookup signature (2 * n)) by lia.
  rewrite <- (byte_at_lookup signature (2 * n + 1)) by lia.
  split; intros [H1 H2]; split; congruence.
Qed.

(** The loop leaves the state alone, and ends the process at the first
    byte that disagrees. *)
Lemma verify_loop_result filename signature n sum st :
  verify_loop filename signature n sum st = (st, Ok tt)
  \/ verify_loop filename signature n sum st
     = (st, Exit 0 (SignatureVerificationFailed filename signature)).
Proof.
  revert n. induction sum as [| b rest IH]; intros n; simpl.
  - left. reflexivity.
  - unfold bind, fail. destruct (mismatch signature n b).
    + right. reflexivity.
    + apply IH.
Qed.

Lemma verify_loop_ok filename signature n sum st :
  (2 * (n + length sum) <= length signature)%nat ->
  verify_loop filename signature n sum st = (st, Ok tt)
  <-> (forall i b, sum !! i = Some b ->
         signature !! (2 * (n + i))%nat = Some (hex_digit (high_nibble b))
         /\ signature !! (2 * (n + i) + 1)%nat = Some (hex_digit (low_nibble b))).
Proof.
  revert n. induction sum as [| b rest IH]; intros n Hlen.
  - simpl. split; [| reflexivity]. intros _ i b Hi. discriminate Hi.
  - cbn [verify_loop length] in *. unfold bind, fail.
    destruct (mismatch signature n b) eqn:Hm.
    + split; [discriminate |]. intros H. exfalso.
      specialize (H 0%nat b eq_refl). rewrite Nat.add_0_r in H.
      apply mismatch_false in H; [congruence | lia].
    + unfold ret. rewrite IH by lia. apply mismatch_false in Hm; [| lia].
      split.
      * intros H [| i] b' Hi; simpl in Hi.
        -- inversion Hi; subst. rewrite Nat.add_0_r. exact Hm.
        -- replace (n + S i)%nat with (S n + i)%nat by lia. apply H. exact Hi.
      * intros H i b' Hi.
        replace (S n + i)%nat with (n + S i)%nat by lia. apply H. exact Hi.
Qed.

Lemma ReadFull_Some f n signature :
  ReadFull f n = Some signature
  <-> File_readable f = true /\ (n <= length (File_data f))%nat
      /\ signature = take n (File_data f).
Proof.
  unfold ReadFull.
  destruct (File_readable f); simpl.
  - destruct (Nat.leb_spec n (length (File_data f))) as [Hle | Hlt].
    + split.
      * intros H. inversion H. auto.
      * intros (_ & _ & ->). reflexivity.
    + split; [discriminate |]. intros (_ & Hle & _). lia.
  - split; [discriminate |]. intros (H & _). discriminate H.
Qed.

Lemma verify_tail filename signature f st :
  (hash_Write (File_data f) ;;
   let* sum := hash_Sum in
   verify_loop filename signature 0 sum ;;
   hash_Reset ;;
   ret (f, length (File_data f))) st
  = let st1 := with_hash st (hash st ++ File_data f) in
    match verify_loop filename signature 0 (sha1.Sum (hash st ++ File_data f)) st1 with
    | (st', Ok _) => (with_hash st' [], Ok (f, length (File_data f)))
    | (st', Return why) => (st', Return why)
    | (st', Exit code why) => (st', Exit code why)
    end.
Proof. reflexivity. Qed.

(** Every way [verify] can go, by what the two files are. *)
Lemma verify_cases env nativeLib filename st :
  match os_Open env (nativeLib +:+ sigExt) with
  | None => verify env nativeLib filename st = (st, Exit 0 SignatureOpenFailed)
  | Some sig =>
      match ReadFull sig 40 with
      | None => verify env nativeLib filename st = (st, Exit 0 SignatureReadFailed)
      | Some signature =>
          match os_Open env nativeLib with
          | None => verify env nativeLib filename st = (st, Exit 0 NativeOpenFailed)
          | Some f =>
              if File_readable f then
                let sum := sha1.Sum (hash st ++ File_data f) in
                (digest_agrees signature sum
                 /\ verify env nativeLib filename st
                    = (with_hash st [], Ok (f, length (File_data f))))
                \/ (~ digest_agrees signature sum
                    /\ verify env nativeLib filename st
                       = (with_hash st (hash st ++ File_data f),
                          Exit 0 (SignatureVerificationFailed filename signature)))
              else verify env nativeLib filename st = (st, Exit 0 NativeReadFailed)
          end
      end
  end.
Proof.
  unfold verify, open.
  destruct (os_Open env (nativeLib +:+ sigExt)) as [sig |]; [| reflexivity].
  rewrite bind_ret.
  destruct (ReadFull sig 40) as [signature |] eqn:Hread; [| reflexivity].
  apply ReadFull_Some in Hread as (_ & Hlen & Hsig).
  assert (Hlen40 : length signature = 40%nat).
  { rewrite Hsig, length_take. lia. }
  destruct (os_Open env nativeLib) as [f |]; [| reflexivity].
  rewrite bind_ret.
  destruct (File_readable f); [| reflexivity].
  cbn [negb fail]. rewrite bind_ret, verify_tail.
  set (st1 := with_hash st (hash st ++ File_data f)).
  set (sum := sha1.Sum (hash st ++ File_data f)).
  assert (Hagree : verify_loop filename signature 0 sum st1 = (st1, Ok tt)
                   <-> digest_agrees signature sum).
  { rewrite verify_loop_ok.
    - unfold digest_agrees. reflexivity.
    - subst sum. rewrite Sum_length, Hlen40. simpl. lia. }
  cbv zeta.
  destruct (verify_loop_result filename signature 0 sum st1) as [Hok | Hbad].
  - left. split; [apply Hagree; exact Hok |].
    rewrite Hok. reflexivity.
  - right. split.
    + intros H. apply Hagree in H. rewrite H in Hbad. discriminate Hbad.
    + rewrite Hbad. reflexivity.
Qed.

(** Verification either hands over the archive, with the hash reset and
    nothing else changed, or ends the process with status 0 before
    anything is written. *)
Lemma verify_result env nativeLib filename st st' r :
  verify env nativeLib filename st = (st', r) ->
  (exists f, r = Ok (f, length (File_data f)) /\ st' = with_hash st [])
  \/ (exists why, r = Exit 0 why /\ verification_failure why
                  /\ effects st' = effects st /\ libraries st' = libraries st).
Proof.
  intros H. pose proof (verify_cases env nativeLib filename st) as C.
  destruct (os_Open env (nativeLib +:+ sigExt)) as [sig |].
  2: { rewrite C in H. inversion H. right. eexists. repeat split. }
  destruct (ReadFull sig 40) as [signature |].
  2: { rewrite C in H. inversion H. right. eexists. repeat split. }
  destruct (os_Open env nativeLib) as [f |].
  2: { rewrite C in H. inversion H. right. eexists. repeat split. }
  destruct (File_readable f).
  2: { rewrite C in H. inversion H. right. eexists. repeat split. }
  destruct C as [[_ C] | [_ C]]; rewrite C in H; inversion H.
  - left. exists f. split; reflexivity.
  - right. eexists. repeat split.
Qed.

(** ** NativeExtractor *)

Lemma excluded_iff excludes name :
  excluded excludes name = true
  <-> exists p, p ∈ excludes /\ starts_with name p.
Proof.
  unfold excluded. rewrite existsb_exists. split.
  - intros (p & Hin & Hp). exists p. split.
    + apply list_elem_of_In. exact Hin.
    + apply HasPrefix_starts_with. exact Hp.
  - intros (p & Hin & Hp). exists p. split.
    + apply list_elem_of_In. exact Hin.
    + apply HasPrefix_starts_with. exact Hp.
Qed.

(** One entry: created unless the path cannot be, then written unless
    the entry cannot be opened or decompressed. *)
Lemma extract_entry_cases env nativesDir file st :
  extract_entry env nativesDir file st
  = if os_Create env (destination nativesDir file) then
      (with_effects st (written nativesDir file),
       match ZipFile_Body file with
       | OpenError => Exit 0 EntryOpenFailed
       | CopyError => Exit 0 DecompressFailed
       | Body _ => Ok tt
       end)
    else (st, Exit 0 CreateFailed).
Proof.
  unfold extract_entry, written, destination.
  destruct (os_Create env _); [| reflexivity].
  destruct (ZipFile_Body file); unfold bind, fail, emit, fatal, ret, with_effects; simpl;
    rewrite <- ?app_assoc; reflexivity.
Qed.

Lemma ZipLoop_cons env nativesDir excludes file rest st :
  ZipLoop env nativesDir excludes (file :: rest) st
  = if excluded excludes (ZipFile_Name file)
    then ZipLoop env nativesDir excludes rest st
    else (extract_entry env nativesDir file ;;
          ZipLoop env nativesDir excludes rest) st.
Proof. simpl. destruct (excluded excludes (ZipFile_Name file)); reflexivity. Qed.

(** The loop on an archive is the loop on its kept entries: an excluded
    entry might as well not be there. *)
Lemma ZipLoop_kept env nativesDir excludes files st :
  ZipLoop env nativesDir excludes files st
  = ZipLoop env nativesDir [] (filter (kept excludes) files) st.
Proof.
  revert st. induction files as [| file rest IH]; intros st; [reflexivity |].
  rewrite ZipLoop_cons. destruct (excluded excludes (ZipFile_Name file)) eqn:E.
  - rewrite filter_cons_False by (unfold kept; congruence). apply IH.
  - rewrite filter_cons_True by exact E.
    rewrite ZipLoop_cons. cbn [excluded existsb].
    unfold bind. destruct (extract_entry env nativesDir file st) as [st' [[] | why | code why]];
      [apply IH | reflexivity | reflexivity].
Qed.

(** Whatever the loop does to the world, it does for a kept entry. *)
Lemma ZipLoop_effects env nativesDir excludes files st st' r :
  ZipLoop env nativesDir excludes files st = (st', r) ->
  exists es,
    st' = with_effects st es
    /\ forall e, e ∈ es ->
         exists file, file ∈ files /\ kept excludes file /\ e ∈ written nativesDir file.
Proof.
  revert st. induction files as [| file rest IH]; intros st H.
  - inversion H. exists []. split; [symmetry; apply with_effects_nil |].
    intros e He. inversion He.
  - rewrite ZipLoop_cons in H.
    destruct (excluded excludes (ZipFile_Name file)) eqn:E.
    + destruct (IH st H) as (es & Hst & Hes). exists es. split; [exact Hst |].
      intros e He. destruct (Hes e He) as (f & Hf & Hk & Hw).
      exists f. split; [right; exact Hf | auto].
    + unfold bind in H. rewrite extract_entry_cases in H.
      assert (Hhere : forall e, e ∈ written nativesDir file ->
                exists f, f ∈ file :: rest /\ kept excludes f /\ e ∈ written nativesDir f).
      { intros e He. exists file. split; [left | split; [exact E | exact He]]. }
      destruct (os_Create env (destination nativesDir file)).
      * destruct (ZipFile_Body file) eqn:B.
        -- inversion H. exists (written nativesDir file). split; [reflexivity | exact Hhere].
        -- inversion H. exists (written nativesDir file). split; [reflexivity | exact Hhere].
        -- destruct (IH _ H) as (es & Hst & Hes).
           exists (written nativesDir file ++ es). split.
           ++ rewrite Hst. apply with_effects_app.
           ++ intros e He. apply elem_of_app in He as [He | He]; [apply Hhere; exact He |].
              destruct (Hes e He) as (f & Hf & Hk & Hw).
              exists f. split; [right; exact Hf | auto].
      * inversion H. exists []. split; [symmetry; apply with_effects_nil |].
        intros e He. inversion He.
Qed.

(** When nothing stands in the way, every kept entry is created and
    written, in the archive's order, and nothing else is. *)
Lemma ZipLoop_all env nativesDir files st :
  Forall (extractable env nativesDir) files ->
  ZipLoop env nativesDir [] files st
  = (with_effects st (flat_map (written nativesDir) files), Ok tt).
Proof.
  intros H. revert st. induction H as [| file rest [Hc [data Hd]] _ IH]; intros st.
  - simpl. rewrite with_effects_nil. reflexivity.
  - rewrite ZipLoop_cons. cbn [excluded existsb].
    unfold bind. rewrite extract_entry_cases, Hc, Hd.
    rewrite IH, with_effects_app. reflexivity.
Qed.

Lemma extract_cases env nativesDir excludes f n st :
  extract env nativesDir excludes f n st
  = if File_seekable f then
      match zip_NewReader env (take n (File_data f)) with
      | Some files => ZipLoop env nativesDir excludes files st
      | None => (st, Exit 0 ZipOpenFailed)
      end
    else (st, Exit 0 SeekFailed).
Proof.
  unfold extract. destruct (File_seekable f); [| reflexivity].
  cbn [negb fail]. rewrite bind_ret.
  destruct (zip_NewReader env _); reflexivity.
Qed.

Lemma ZipLoop_exits env nativesDir excludes files :
  exits_with extraction_failure (ZipLoop env nativesDir excludes files).
Proof.
  induction files as [| file rest IH]; intros st st' r H.
  - inversion H. exact I.
  - rewrite ZipLoop_cons in H.
    destruct (excluded excludes (ZipFile_Name file)); [exact (IH _ _ _ H) |].
    unfold bind in H. rewrite extract_entry_cases in H.
    destruct (os_Create env _).
    + destruct (ZipFile_Body file).
      * inversion H. split; [reflexivity | exact I].
      * inversion H. split; [reflexivity | exact I].
      * exact (IH _ _ _ H).
    + inversion H. split; [reflexivity | exact I].
Qed.

Lemma extract_exits env nativesDir excludes f n :
  exits_with extraction_failure (extract env nativesDir excludes f n).
Proof.
  intros st st' r H. rewrite extract_cases in H.
  destruct (File_seekable f).
  - destruct (zip_NewReader env _) as [files |].
    + exact (ZipLoop_exits env nativesDir excludes files _ _ _ H).
    + inversion H. split; [reflexivity | exact I].
  - inversion H. split; [reflexivity | exact I].
Qed.

(** Extraction touches neither the classpath nor the hash. *)
Lemma extract_frame env nativesDir excludes f n st st' r :
  extract env nativesDir excludes f n st = (st', r) ->
  libraries st' = libraries st /\ hash st' = hash st.
Proof.
  intros H. rewrite extract_cases in H.
  destruct (File_seekable f); [| inversion H; auto].
  destruct (zip_NewReader env _) as [files |]; [| inversion H; auto].
  destruct (ZipLoop_effects _ _ _ _ _ _ _ H) as (es & -> & _). auto.
Qed.

(** ** One library, and the loop over all of them *)

(** One library, in every case. *)
Lemma library_step_cases env minecraftDir nativesDir library st :
  let osStr := osStr_of (GOOS env) in
  let classifier := get_string (Library_Natives library) osStr in
  let name := Library_Name library in
  library_step env minecraftDir nativesDir library st
  = if rules_allowed osStr (Library_Rules library) then
      match strings.cut name ":" with
      | None => (st, Exit 0 (UnknownLibraryFormat name))
      | Some (group, rest) =>
          let librarySplit := strings.Split rest ":" in
          let pathSplit := strings.Split group "." ++ librarySplit in
          if String.eqb classifier "" then
            append_library
              (library_path minecraftDir pathSplit (ordinary_filename librarySplit)) st
          else
            let filename := native_filename librarySplit classifier in
            (let* opened := verify env (library_path minecraftDir pathSplit filename)
                              filename in
             extract env nativesDir (get_strings (Library_Extract library) "exclude")
               (fst opened) (snd opened)) st
      end
    else (st, Ok tt).
Proof.
  intros osStr classifier name. unfold library_step. fold osStr classifier name.
  destruct (rules_allowed osStr (Library_Rules library)); [| reflexivity].
  cbn [negb].
  destruct (strings.cut name ":") as [[group rest] |] eqn:C.
  - assert (Hc : strings.Contains name ":" = true).
    { destruct (strings.Contains name ":") eqn:E; [reflexivity |].
      apply cut_None_iff in E. congruence. }
    destruct (split_coordinate_colon name st Hc) as (g & r & Hcut & Hs).
    rewrite C in Hcut. inversion Hcut; subst g r.
    rewrite (bind_Ok _ _ _ _ _ Hs).
    destruct (String.eqb classifier ""); [reflexivity |].
    cbn [negb]. unfold bind.
    destruct (verify env _ _ st) as [st' [[f n] | why | code why]]; reflexivity.
  - apply cut_None_iff in C.
    rewrite (bind_Exit _ _ _ _ _ _ (split_coordinate_no_colon name st C)).
    reflexivity.
Qed.


(** The hash is empty again after every step that goes on. *)
Lemma library_step_hash env minecraftDir nativesDir library st st' :
  hash st = [] ->
  library_step env minecraftDir nativesDir library st = (st', Ok tt) ->
  hash st' = [].
Proof.
  intros Hh H. rewrite library_step_cases in H. cbv zeta in H.
  destruct (rules_allowed _ _); [| inversion H; subst; exact Hh].
  destruct (strings.cut _ _) as [[group rest] |]; [| discriminate H].
  destruct (String.eqb _ "").
  - inversion H. exact Hh.
  - unfold bind in H.
    destruct (verify env _ _ st) as [st1 r] eqn:V.
    destruct (verify_result _ _ _ _ _ _ V) as [(f & -> & ->) | (w & -> & _)];
      [| discriminate H].
    apply extract_frame in H as [_ Hhash]. rewrite Hhash. reflexivity.
Qed.

Lemma library_step_exits env minecraftDir nativesDir library :
  exits_with (fun _ => True) (library_step env minecraftDir nativesDir library).
Proof.
  intros st st' r H. rewrite library_step_cases in H. cbv zeta in H.
  destruct (rules_allowed _ _); [| inversion H; exact I].
  destruct (strings.cut _ _) as [[group rest] |]; [| inversion H; auto].
  destruct (String.eqb _ ""); [inversion H; exact I |].
  unfold bind in H.
  destruct (verify env _ _ st) as [st1 r1] eqn:V.
  destruct (verify_result _ _ _ _ _ _ V) as [(f & -> & ->) | (w & -> & _)].
  - pose proof (extract_exits _ _ _ _ _ _ _ _ H) as Hx.
    destruct r; [exact I | exact Hx | split; [apply Hx | exact I]].
  - inversion H. auto.
Qed.

Lemma library_loop_exits env minecraftDir nativesDir libs :
  exits_with (fun _ => True) (library_loop env minecraftDir nativesDir libs).
Proof.
  induction libs as [| library rest IH]; intros st st' r H.
  - inversion H. exact I.
  - simpl in H. unfold bind in H.
    destruct (library_step env minecraftDir nativesDir library st) as [st1 r1] eqn:S.
    pose proof (library_step_exits _ _ _ _ _ _ _ S) as Hs.
    destruct r1 as [[] | why | code why].
    + exact (IH _ _ _ H).
    + destruct Hs.
    + inversion H; subst. exact Hs.
Qed.

Lemma library_loop_hash env minecraftDir nativesDir libs st st' :
  hash st = [] ->
  library_loop env minecraftDir nativesDir libs st = (st', Ok tt) ->
  hash st' = [].
Proof.
  revert st. induction libs as [| library rest IH]; intros st Hh H.
  - inversion H; subst. exact Hh.
  - simpl in H. unfold bind in H.
    destruct (library_step env minecraftDir nativesDir library st) as [st1 r1] eqn:S.
    destruct r1 as [[] | why | code why]; [| discriminate H ..].
    apply (IH st1); [| exact H].
    exact (library_step_hash _ _ _ _ _ _ Hh S).
Qed.

(** A loop that ends the process ends the launch there and then. *)
Lemma launch_aborts env profileData launchConfig minecraftDir profile user st st' code why :
  let id := Profile_ID (get_Profile (Profiles profileData) profile) in
  let nativesDir := path.Join [path.Join [minecraftDir; versionsDir; id]; "natives"] in
  library_loop env minecraftDir nativesDir (LaunchConfig_Libraries launchConfig)
    (with_effects st [Mkdir nativesDir]) = (st', Exit code why) ->
  launch env profileData launchConfig minecraftDir profile user st
  = (st', Exit code why).
Proof.
  intros id nativesDir H. unfold launch. fold id. fold nativesDir.
  unfold bind at 1. unfold emit at 1. fold (with_effects st [Mkdir nativesDir]).
  apply bind_Exit. exact H.
Qed.

(** A step that goes on adds the library's classpath entry, if it has one,
    and no other. *)
Lemma library_step_libraries env minecraftDir nativesDir library st st' :
  library_step env minecraftDir nativesDir library st = (st', Ok tt) ->
  libraries st' = libraries st ++ classpath_entry env minecraftDir library.
Proof.
  intros H. rewrite library_step_cases in H. cbv zeta in H.
  unfold classpath_entry.
  destruct (rules_allowed _ _); [| inversion H; subst; rewrite app_nil_r; reflexivity].
  destruct (strings.cut _ _) as [[group rest] |]; [| discriminate H].
  destruct (String.eqb _ "").
  - inversion H. reflexivity.
  - unfold bind in H.
    destruct (verify env _ _ st) as [st1 r] eqn:V.
    destruct (verify_result _ _ _ _ _ _ V) as [(f & -> & ->) | (w & -> & _)];
      [| discriminate H].
    apply extract_frame in H as [Hl _]. rewrite Hl, app_nil_r. reflexivity.
Qed.

Lemma library_loop_libraries env minecraftDir nativesDir libs st st' :
  library_loop env minecraftDir nativesDir libs st = (st', Ok tt) ->
  libraries st' = libraries st ++ flat_map (classpath_entry env minecraftDir) libs.
Proof.
  revert st. induction libs as [| library rest IH]; intros st H.
  - inversion H. rewrite app_nil_r. reflexivity.
  - simpl in H. unfold bind in H.
    destruct (library_step env minecraftDir nativesDir library st) as [st1 r1] eqn:S.
    destruct r1 as [[] | why | code why]; [| discriminate H ..].
    rewrite (IH st1 H), (library_step_libraries _ _ _ _ _ _ S).
    simpl. rewrite app_assoc. reflexivity.
Qed.

(** The step fails as a malformed coordinate exactly for an allowed
    library whose name has no colon, and then before anything else
    happens. *)
Lemma library_step_malformed env minecraftDir nativesDir library st st' code name :
  library_step env minecraftDir nativesDir library st
  = (st', Exit code (UnknownLibraryFormat name))
  <-> rules_allowed (osStr_of (GOOS env)) (Library_Rules library) = true
      /\ strings.Contains (Library_Name library) ":" = false
      /\ name = Library_Name library /\ st' = st /\ code = 0.
Proof.
  rewrite library_step_cases. cbv zeta.
  destruct (rules_allowed _ _).
  2: { split; [discriminate | intros (H & _); discriminate H]. }
  destruct (strings.cut (Library_Name library) ":") as [[group rest] |] eqn:C.
  - assert (Hc : strings.Contains (Library_Name library) ":" = true).
    { destruct (strings.Contains _ _) eqn:E; [reflexivity |].
      apply cut_None_iff in E. congruence. }
    split; [| intros (_ & H & _); congruence].
    intros H. exfalso.
    destruct (String.eqb _ ""); [discriminate H |].
    unfold bind in H.
    destruct (verify env _ _ st) as [st1 r] eqn:V.
    destruct (verify_result _ _ _ _ _ _ V) as [(f & -> & ->) | (w & -> & Hv & _)].
    + pose proof (extract_exits _ _ _ _ _ _ _ _ H) as [_ Hx]. exact Hx.
    + inversion H; subst. exact Hv.
  - apply cut_None_iff in C. split.
    + intros H. inversion H; subst. auto.
    + intros (_ & _ & -> & -> & ->). reflexivity.
Qed.


(** ** The claims about resolution, verification and extraction *)

(** C7. Resolution fails as a malformed coordinate exactly when the split
    at the first colon does not give two pieces, which is exactly when the
    coordinate has no colon: [bad-format] fails, a coordinate with a colon
    never does, whatever else goes wrong with the library. The check is
    made only for a dependency the rules allow. In the earlier revision the
    same test leaves [main] instead. *)
Theorem malformed_coordinate_iff (name : string) (st : state) :
  (split_coordinate name st = (st, Exit 0 (UnknownLibraryFormat name))
   <-> length (strings.SplitN name ":" 2) <> 2%nat)
  /\ (length (strings.SplitN name ":" 2) <> 2%nat
      <-> strings.Contains name ":" = false)
  /\ (strings.Contains name ":" = true ->
      exists pieces, split_coordinate name st = (st, Ok pieces))
  /\ split_coordinate "bad-format" st
     = (st, Exit 0 (UnknownLibraryFormat "bad-format"))
  /\ (forall env minecraftDir nativesDir library,
        Library_Name library = name ->
        (exists st' code why,
           library_step env minecraftDir nativesDir library st
           = (st', Exit code (UnknownLibraryFormat why)))
        <-> rules_allowed (osStr_of (GOOS env)) (Library_Rules library) = true
            /\ strings.Contains name ":" = false)
  /\ (forall env minecraftDir,
        Part000.library_step env minecraftDir (no_natives name []) st
        = (st, Return (UnknownLibraryFormat name))
        <-> strings.Contains name ":" = false).
Proof.
  assert (Hlen : length (strings.SplitN name ":" 2) <> 2%nat
                 <-> strings.Contains name ":" = false).
  { rewrite SplitN_2_length. destruct (strings.Contains name ":"); split; congruence. }
  split.
  { rewrite Hlen. split.
    - intros H. destruct (strings.Contains name ":") eqn:E; [| reflexivity].
      destruct (split_coordinate_colon name st E) as (g & r & _ & Hs).
      rewrite Hs in H. discriminate H.
    - apply split_coordinate_no_colon. }
  split; [exact Hlen |].
  split.
  { intros H. destruct (split_coordinate_colon name st H) as (g & r & _ & Hs).
    eexists. exact Hs. }
  split; [reflexivity |].
  split.
  { intros env minecraftDir nativesDir library <-. split.
    - intros (st' & code & why & H).
      apply library_step_malformed in H as (H1 & H2 & _). auto.
    - intros [H1 H2]. exists st, 0, (Library_Name library).
      apply library_step_malformed. auto. }
  intros env minecraftDir. unfold Part000.library_step, no_natives.
  cbn [Library_Natives Library_Rules Library_Name].
  unfold get_string. rewrite lookup_empty.
  change (rules_allowed (osStr_of (GOOS env)) []) with true.
  cbn [default String.eqb negb].
  rewrite SplitN_2_length.
  destruct (strings.Contains name ":"); cbn [Nat.eqb negb].
  - split; [| discriminate]. unfold append_library. intros H. discriminate H.
  - split; reflexivity.
Qed.

Lemma malformed_coordinate_iff_witness :
  exists pieces, split_coordinate "com.example:lib:1.2.3" initial = (initial, Ok pieces).
Proof.
  apply (proj1 (proj2 (proj2 (malformed_coordinate_iff "com.example:lib:1.2.3" initial)))).
  reflexivity.
Defined.

(** C3. For a coordinate [group:artifact:version], the resolved path is the
    library root joined with the group's dot-separated segments, then the
    artifact, then the version, then the file name [artifact-version.jar];
    a dependency with a classifier for the platform gets the file name
    [artifact-version-classifier.jar] in the same directory, and that is the
    archive handed to verification and extraction. When the segments, the
    artifact and the version are plain path elements, joining is plain
    concatenation with slashes. The coordinate [com.example:lib:1.2.3]
    gives [.../libraries/com/example/lib/1.2.3/lib-1.2.3.jar], and with the
    classifier [natives-windows] the file name
    [lib-1.2.3-natives-windows.jar]. *)
Theorem coordinate_resolution (env : Env) (minecraftDir nativesDir : string)
    (group artifact version : string) (library : Library) (st : state) :
  strings.Contains group ":" = false ->
  strings.Contains artifact ":" = false ->
  strings.Contains version ":" = false ->
  Library_Name library = group +:+ ":" +:+ artifact +:+ ":" +:+ version ->
  rules_allowed (osStr_of (GOOS env)) (Library_Rules library) = true ->
  let root := path.Join [minecraftDir; libraryDir] in
  let dirs := strings.Split group "." ++ [artifact; version] in
  let classifier := get_string (Library_Natives library) (osStr_of (GOOS env)) in
  let jar := artifact +:+ "-" +:+ version +:+ ".jar" in
  let native := artifact +:+ "-" +:+ version +:+ "-" +:+ classifier +:+ ".jar" in
  (classifier = "" ->
   library_step env minecraftDir nativesDir library st
   = append_library (path.Join [root; path.Join (dirs ++ [jar])]) st)
  /\ (classifier <> "" ->
      library_step env minecraftDir nativesDir library st
      = (let* opened := verify env (path.Join [root; path.Join (dirs ++ [native])]) native in
         extract env nativesDir (get_strings (Library_Extract library) "exclude")
           (fst opened) (snd opened)) st)
  /\ (Forall plain (strings.Split group ".") -> plain artifact -> plain version ->
      path.Join [root; path.Join (dirs ++ [jar])]
      = root +:+ "/" +:+ strings.Join (dirs ++ [jar]) "/"
      /\ (strings.Contains classifier "/" = false ->
          path.Join [root; path.Join (dirs ++ [native])]
          = root +:+ "/" +:+ strings.Join (dirs ++ [native]) "/"))
  /\ libraries (fst (library_step env "/home/x/.minecraft" nativesDir
                       (no_natives "com.example:lib:1.2.3" []) initial))
     = ["/home/x/.minecraft/libraries/com/example/lib/1.2.3/lib-1.2.3.jar"]
  /\ native_filename [ "lib"; "1.2.3" ] "natives-windows"
     = "lib-1.2.3-natives-windows.jar".
Proof.
  intros Hg Ha Hv Hname Hallowed root dirs classifier jar native.
  assert (Hstep : forall k : list string * list string -> M unit,
            (let* split := split_coordinate (Library_Name library) in k split) st
            = k ([artifact; version], dirs) st).
  { intros k. unfold bind at 1. rewrite Hname.
    rewrite (split_coordinate_gav group artifact version st Hg Ha Hv). reflexivity. }
  split; [| split; [| split; [| split]]].
  - intros Hc. unfold library_step. rewrite Hallowed. cbn [negb].
    rewrite Hstep. fold classifier. rewrite Hc. cbn [String.eqb negb].
    rewrite ordinary_filename_av. reflexivity.
  - intros Hc. unfold library_step. rewrite Hallowed. cbn [negb].
    rewrite Hstep. fold classifier.
    destruct (String.eqb_spec classifier "") as [E | _]; [contradiction |].
    cbn [negb]. unfold bind.
    rewrite native_filename_av. fold native.
    change (library_path minecraftDir dirs native)
      with (path.Join [root; path.Join (dirs ++ [native])]).
    destruct (verify env _ native st) as [st' [[f n] | why | code why]]; reflexivity.
  - intros Hgroup Hartifact Hversion.
    assert (Hdirs : Forall plain dirs).
    { apply Forall_app. split; [exact Hgroup |].
      constructor; [exact Hartifact | constructor; [exact Hversion | constructor]]. }
    destruct Hversion as (_ & _ & _ & Hvs).
    split; [| intros Hcs].
    + apply (library_path_literal minecraftDir dirs jar).
      apply Forall_app. split; [exact Hdirs |]. constructor; [| constructor].
      apply filename_plain; [exact Hartifact |].
      rewrite Contains_append, Hvs. reflexivity.
    + apply (library_path_literal minecraftDir dirs native).
      apply Forall_app. split; [exact Hdirs |]. constructor; [| constructor].
      apply filename_plain; [exact Hartifact |].
      rewrite !Contains_append, Hvs, Hcs. reflexivity.
  - unfold library_step, no_natives.
    cbn [Library_Natives Library_Rules Library_Name Library_Extract].
    unfold get_string. rewrite lookup_empty. reflexivity.
  - reflexivity.
Qed.

Lemma coordinate_resolution_witness :
  library_step bare_env "/home/x/.minecraft" "natives"
    (no_natives "com.example:lib:1.2.3" []) initial
  = append_library
      "/home/x/.minecraft/libraries/com/example/lib/1.2.3/lib-1.2.3.jar" initial.
Proof.
  apply (proj1 (coordinate_resolution bare_env "/home/x/.minecraft" "natives"
                  "com.example" "lib" "1.2.3"
                  (no_natives "com.example:lib:1.2.3" []) initial
                  eq_refl eq_refl eq_refl eq_refl eq_refl)).
  reflexivity.
Defined.



(** C4. An entry whose path starts with one of the exclusion prefixes is
    never written: the loop behaves as if the archive did not hold it, and
    whatever it creates or writes, however it ends, belongs to an entry
    that no prefix matches. Every such entry is created at the scratch
    directory joined with its path and gets its decompressed bytes, in the
    archive's order, as long as no creation, opening or decompression fails
    (a failure ends the process). *)
Theorem extraction_honours_exclusions (env : Env) (nativesDir : string)
    (excludes : list string) (files : list ZipFile) (st : state) :
  (forall file,
     kept excludes file
     <-> forall p, p ∈ excludes -> ~ starts_with (ZipFile_Name file) p)
  /\ ZipLoop env nativesDir excludes files st
     = ZipLoop env nativesDir [] (filter (kept excludes) files) st
  /\ (forall st' r,
        ZipLoop env nativesDir excludes files st = (st', r) ->
        exists es,
          st' = with_effects st es
          /\ forall e, e ∈ es ->
               exists file,
                 file ∈ files /\ kept excludes file /\ e ∈ written nativesDir file)
  /\ (Forall (extractable env nativesDir) (filter (kept excludes) files) ->
      ZipLoop env nativesDir excludes files st
      = (with_effects st (flat_map (written nativesDir) (filter (kept excludes) files)),
         Ok tt))
  /\ (forall file data,
        ZipFile_Body file = Body data ->
        written nativesDir file
        = [CreateFile (path.Join [nativesDir; ZipFile_Name file]);
           WriteFile (path.Join [nativesDir; ZipFile_Name file]) data])
  /\ (forall f n,
        File_seekable f = true ->
        zip_NewReader env (take n (File_data f)) = Some files ->
        extract env nativesDir excludes f n st
        = ZipLoop env nativesDir excludes files st).
Proof.
  split; [| split; [| split; [| split; [| split]]]].
  - intros file. unfold kept. split.
    + intros Hk p Hp Hs.
      assert (Hx : excluded excludes (ZipFile_Name file) = true).
      { apply excluded_iff. exists p. auto. }
      congruence.
    + intros H. destruct (excluded excludes (ZipFile_Name file)) eqn:E; [| reflexivity].
      apply excluded_iff in E as (p & Hp & Hs). destruct (H p Hp Hs).
  - apply ZipLoop_kept.
  - intros st' r H. exact (ZipLoop_effects _ _ _ _ _ _ _ H).
  - intros H. rewrite ZipLoop_kept. apply ZipLoop_all. exact H.
  - intros file data H. unfold written, destination. rewrite H. reflexivity.
  - intros f n Hs Hz. rewrite extract_cases, Hs, Hz. reflexivity.
Qed.

Lemma extraction_honours_exclusions_witness :
  ZipLoop (native_env "linux" 0) "/mc/versions/1.7.10/natives" ["META-INF/"]
    sample_entries initial
  = (with_effects initial
       [CreateFile "/mc/versions/1.7.10/natives/liblwjgl.so";
        WriteFile "/mc/versions/1.7.10/natives/liblwjgl.so" (bytes_of "ELF")],
     Ok tt).
Proof.
  apply (proj1 (proj2 (proj2 (proj2
           (extraction_honours_exclusions (native_env "linux" 0)
              "/mc/versions/1.7.10/natives" ["META-INF/"] sample_entries initial))))).
  repeat constructor. exists (bytes_of "ELF"). reflexivity.
Defined.

(** ** LaunchAssembler *)

(** C6, as the code has it. The vector is the five tuning flags, the
    library-search-path flag naming the scratch natives directory, [-cp]
    and its value, the main entry point, and the substituted arguments;
    the classpath value is the resolved entries, in manifest order, and
    the version's primary archive, joined with a colon whatever the
    platform. It is the vector the process is started with. *)
Theorem launch_arguments (env : Env) (profileData : ProfileData)
    (launchConfig : LaunchConfig) (minecraftDir profile user : string)
    (st st1 : state) :
  let id := Profile_ID (get_Profile (Profiles profileData) profile) in
  let versionDir := path.Join [minecraftDir; versionsDir; id] in
  let nativesDir := path.Join [versionDir; "natives"] in
  let entries := flat_map (classpath_entry env minecraftDir)
                   (LaunchConfig_Libraries launchConfig) in
  let args :=
    [ "-Xmx1G"; "-XX:+UseConcMarkSweepGC"; "-XX:+CMSIncrementalMode";
      "-XX:-UseAdaptiveSizePolicy"; "-Xmn128M";
      "-Djava.library.path=" +:+ nativesDir;
      "-cp";
      strings.Join (libraries st ++ entries ++ [path.Join [versionDir; id +:+ ".jar"]]) ":";
      LaunchConfig_Class launchConfig ]
    ++ substitute (main_context profileData minecraftDir profile user)
         (LaunchConfig_Args launchConfig) in
  library_loop env minecraftDir nativesDir (LaunchConfig_Libraries launchConfig)
    (with_effects st [Mkdir nativesDir]) = (st1, Ok tt) ->
  StdoutPipe_ok env = true ->
  Start_ok env = true ->
  effects (fst (launch env profileData launchConfig minecraftDir profile user st))
  = effects st1 ++ [StartProcess "java" args; RemoveAll nativesDir].
Proof.
  intros id versionDir nativesDir entries args Hloop Hpipe Hstart.
  unfold launch. fold id. fold versionDir. fold nativesDir.
  unfold bind at 1. unfold emit at 1. fold (with_effects st [Mkdir nativesDir]).
  rewrite (bind_Ok _ _ _ _ _ Hloop).
  unfold bind at 1. unfold append_library at 1.
  unfold supervise. rewrite Hpipe, Hstart. cbn [negb libraries].
  rewrite (library_loop_libraries _ _ _ _ _ _ Hloop).
  cbn [libraries with_effects]. fold entries.
  unfold assemble, bind, emit, fail, fatal, ret.
  rewrite <- (app_assoc (libraries st) entries).
  destruct (os_RemoveAll_ok env); cbn [negb fst effects];
    rewrite <- app_assoc; reflexivity.
Qed.

Lemma launch_arguments_witness :
  effects (fst (launch (native_env "linux" 0) sample_profiles sample_config
                  "/mc" "survival" "u-1" initial))
  = [ Mkdir "/mc/versions/1.7.10/natives";
      CreateFile "/mc/versions/1.7.10/natives/liblwjgl.so";
      WriteFile "/mc/versions/1.7.10/natives/liblwjgl.so" (bytes_of "ELF");
      StartProcess "java"
        [ "-Xmx1G"; "-XX:+UseConcMarkSweepGC"; "-XX:+CMSIncrementalMode";
          "-XX:-UseAdaptiveSizePolicy"; "-Xmn128M";
          "-Djava.library.path=/mc/versions/1.7.10/natives"; "-cp";
          "/mc/libraries/com/example/lib/1.2.3/lib-1.2.3.jar:/mc/libraries/org/example/tool/2.0/tool-2.0.jar:/mc/versions/1.7.10/1.7.10.jar";
          "net.minecraft.client.main.Main"; "--user"; "Alice"; "--dir"; "/mc" ];
      RemoveAll "/mc/versions/1.7.10/natives" ].
Proof.
  exact (launch_arguments (native_env "linux" 0) sample_profiles sample_config
           "/mc" "survival" "u-1" initial
           {| libraries := [ "/mc/libraries/com/example/lib/1.2.3/lib-1.2.3.jar";
                             "/mc/libraries/org/example/tool/2.0/tool-2.0.jar" ];
              hash := [];
              effects := [ Mkdir "/mc/versions/1.7.10/natives";
                           CreateFile "/mc/versions/1.7.10/natives/liblwjgl.so";
                           WriteFile "/mc/versions/1.7.10/natives/liblwjgl.so"
                             (bytes_of "ELF") ] |}
           eq_refl eq_refl eq_refl).
Defined.

(** C6, as the specification words it, fails on Windows: the launcher
    starts the child with a colon-separated classpath, where the platform's
    separator is the semicolon. *)
Lemma classpath_separator_not_platform :
  let nativesDir := "/mc/versions/1.7.10/natives" in
  let entries := [ "/mc/libraries/com/example/lib/1.2.3/lib-1.2.3.jar";
                   "/mc/libraries/org/lwjgl/lwjgl-platform/2.9.0/lwjgl-platform-2.9.0.jar";
                   "/mc/libraries/org/example/tool/2.0/tool-2.0.jar";
                   "/mc/versions/1.7.10/1.7.10.jar" ] in
  let ma := [ "--user"; "Alice"; "--dir"; "/mc" ] in
  let class := "net.minecraft.client.main.Main" in
  effects (fst (run (native_env "windows" 0) sample_profiles sample_config
                  "/mc" "survival" "u-1"))
  = [ Mkdir nativesDir;
      StartProcess "java" (assemble nativesDir entries class ma);
      RemoveAll nativesDir ]
  /\ assemble nativesDir entries class ma
     <> assemble_for_platform "windows" nativesDir entries class ma.
Proof.
  split; [vm_compute; reflexivity | discriminate].
Qed.

(** ** ProcessSupervisor *)


(** What the child reports is bound and never looked at. *)
Lemma supervise_ignores_child env nativesDir args status st :
  supervise (with_child_status env status) nativesDir args st
  = supervise env nativesDir args st.
Proof. reflexivity. Qed.





(** * More of the code *)

(** ** How joined paths compose *)

Lemma is_rooted_app X rest : X <> "" -> path.is_rooted (X +:+ rest) = path.is_rooted X.
Proof. destruct X as [| x X]; [congruence | reflexivity]. Qed.

(** The elements of a path followed by a slash and more path: the second
    part is cleaned on top of the first. *)
Lemma elements_app X Y :
  X <> "" ->
  path.elements (X +:+ String "/" Y)
  = rev (fold_left (path.clean_step (path.is_rooted X)) (strings.Split Y "/")
           (rev (path.elements X))).
Proof.
  intros HX. unfold path.elements.
  rewrite (is_rooted_app X _ HX), Split_app_sep, fold_left_app, rev_involutive.
  reflexivity.
Qed.

(** A cleaned path has the elements and the rootedness of the path it
    was cleaned from. *)
Lemma Clean_same X :
  path.is_rooted (path.Clean X) = path.is_rooted X
  /\ path.elements (path.Clean X) = path.elements X.
Proof.
  pose proof (elements_cleaned X) as Hc.
  pose proof (cleaned_refold _ _ Hc) as Hrefold. rewrite rev_involutive in Hrefold.
  pose proof (cleaned_pieces _ _ Hc) as Hpieces.
  apply Forall_rev in Hpieces. rewrite rev_involutive in Hpieces.
  unfold path.Clean. unfold path.render.
  destruct (path.is_rooted X) eqn:Hr.
  - split; [reflexivity |].
    change ("/" +:+ strings.Join (path.elements X) "/")
      with (String "/" (strings.Join (path.elements X) "/")).
    unfold path.elements at 1. cbn [path.is_rooted strings.Split].
    rewrite Ascii.eqb_refl. cbn [fold_left path.clean_step String.eqb].
    destruct (path.elements X) as [| o out] eqn:E; [reflexivity |].
    rewrite Split_Join; [| discriminate |].
    + rewrite Hrefold, rev_involutive. reflexivity.
    + eapply Forall_impl; [exact Hpieces |]. intros c [_ H]. exact H.
  - destruct (path.elements X) as [| o out] eqn:E; [split; reflexivity |].
    inversion Hpieces as [| ? ? [Ho1 Ho2] Hrest]; subst.
    assert (Hroot : path.is_rooted (strings.Join (o :: out) "/") = false).
    { rewrite <- (append_nil_r (strings.Join (o :: out) "/")).
      apply is_rooted_Join; assumption. }
    split; [exact Hroot |].
    unfold path.elements at 1. rewrite Hroot, Split_Join; [| discriminate |].
    + rewrite Hrefold, rev_involutive. reflexivity.
    + eapply Forall_impl; [exact Hpieces |]. intros c [_ H]. exact H.
Qed.

(** Cleaning twice is cleaning once. *)
Lemma Clean_idempotent X : path.Clean (path.Clean X) = path.Clean X.
Proof.
  destruct (Clean_same X) as [Hr He].
  unfold path.Clean at 1. rewrite Hr, He. reflexivity.
Qed.

Lemma Clean_not_empty X : path.Clean X <> "".
Proof.
  destruct (path.elements X) as [| o out] eqn:E.
  - unfold path.Clean, path.render. rewrite E.
    destruct (path.is_rooted X); discriminate.
  - apply Clean_nonempty. rewrite E. discriminate.
Qed.

(** Cleaning the head of a path first changes nothing. *)
Lemma Clean_head X Y :
  X <> "" ->
  path.Clean (path.Clean X +:+ String "/" Y) = path.Clean (X +:+ String "/" Y).
Proof.
  intros HX. destruct (Clean_same X) as [Hr He].
  unfold path.Clean at 1 3.
  rewrite (elements_app (path.Clean X) Y (Clean_not_empty X)), (elements_app X Y HX).
  rewrite (is_rooted_app _ _ (Clean_not_empty X)), (is_rooted_app _ _ HX).
  rewrite Hr, He. reflexivity.
Qed.

Lemma filter_app_nonempty (xs ys : list string) :
  filter (fun e : string => e <> "") (xs ++ ys)
  = filter (fun e : string => e <> "") xs ++ filter (fun e : string => e <> "") ys.
Proof. apply filter_app. Qed.

Lemma filter_nonempty_all (xs : list string) :
  Forall (fun e : string => e <> "") (filter (fun e : string => e <> "") xs).
Proof.
  apply Forall_forall. intros x Hx. apply list_elem_of_filter in Hx as [H _]. exact H.
Qed.

(** The result of a join, joined with more elements, is the join of all
    the elements: [path.Join(path.Join(xs...), ys...)] is
    [path.Join(xs..., ys...)]. *)
Lemma Join_nested xs ys : path.Join (path.Join xs :: ys) = path.Join (xs ++ ys).
Proof.
  pose proof (filter_nonempty_all xs) as Hxs.
  assert (Hrhs : path.Join (xs ++ ys)
                 = match filter (fun e : string => e <> "") xs
                         ++ filter (fun e : string => e <> "") ys with
                   | [] => ""
                   | es => path.Clean (strings.Join es "/")
                   end).
  { unfold path.Join. rewrite filter_app. reflexivity. }
  rewrite Hrhs. clear Hrhs.
  assert (Hxs' : path.Join xs
                 = match filter (fun e : string => e <> "") xs with
                   | [] => ""
                   | es => path.Clean (strings.Join es "/")
                   end) by reflexivity.
  destruct (filter (fun e : string => e <> "") xs) as [| x xs'].
  - rewrite Hxs'. unfold path.Join.
    rewrite filter_cons_False by (intros H; apply H; reflexivity). reflexivity.
  - inversion Hxs as [| ? ? Hx _]; subst.
    assert (HJ : strings.Join (x :: xs') "/" <> "") by (apply Join_nonempty; exact Hx).
    rewrite Hxs'. unfold path.Join.
    rewrite filter_cons_True by apply Clean_not_empty.
    destruct (filter (fun e : string => e <> "") ys) as [| y ys'].
    + rewrite app_nil_r.
      change (strings.Join [path.Clean (strings.Join (x :: xs') "/")] "/")
        with (path.Clean (strings.Join (x :: xs') "/")).
      apply Clean_idempotent.
    + change (match (x :: xs') ++ y :: ys' with
              | [] => ""
              | s :: l => path.Clean (strings.Join (s :: l) "/")
              end)
        with (path.Clean (strings.Join ((x :: xs') ++ y :: ys') "/")).
      rewrite (Join_app (x :: xs') (y :: ys') "/") by discriminate.
      change (strings.Join (path.Clean (strings.Join (x :: xs') "/") :: y :: ys') "/")
        with (path.Clean (strings.Join (x :: xs') "/")
              +:+ String "/" (strings.Join (y :: ys') "/")).
      apply Clean_head. exact HJ.
Qed.

(** ** Where archive entries are written *)

(** X1. The scratch directory and every destination in it are one flat
    join: the nested [path.Join] calls that build the version directory,
    the natives directory and an entry's destination give the cleaned path
    [minecraftDir/versions/id/natives/name]. *)
Theorem destination_is_flat (minecraftDir id : string) (file : ZipFile) :
  path.Join [path.Join [minecraftDir; versionsDir; id]; "natives"]
  = path.Join [minecraftDir; versionsDir; id; "natives"]
  /\ destination (path.Join [path.Join [minecraftDir; versionsDir; id]; "natives"]) file
     = path.Join [minecraftDir; versionsDir; id; "natives"; ZipFile_Name file].
Proof.
  unfold destination.
  rewrite (Join_nested [minecraftDir; versionsDir; id] ["natives"]).
  split; [reflexivity |].
  apply (Join_nested [minecraftDir; versionsDir; id; "natives"] [ZipFile_Name file]).
Qed.

Lemma Join_skip_empty xs : path.Join ("" :: xs) = path.Join xs.
Proof.
  unfold path.Join. rewrite filter_cons_False by (intros H; apply H; reflexivity).
  reflexivity.
Qed.

Lemma Join_all_nonempty xs :
  xs <> [] -> Forall (fun e : string => e <> "") xs ->
  path.Join xs = path.Clean (strings.Join xs "/").
Proof.
  intros Hne H. unfold path.Join.
  assert (Hf : filter (fun e : string => e <> "") xs = xs).
  { induction H as [| x rest Hx _ IH]; [reflexivity |].
    rewrite filter_cons_True by exact Hx.
    destruct rest; [reflexivity |]. rewrite IH by discriminate. reflexivity. }
  rewrite Hf. destruct xs; [congruence | reflexivity].
Qed.

Lemma plain_not_rooted c : plain c -> path.is_rooted c = false.
Proof.
  intros (Hne & _ & _ & Hs). rewrite <- (append_nil_r c).
  apply is_rooted_append; assumption.
Qed.

Lemma Join_dotdot versionDir c :
  plain c ->
  path.Join [path.Join [versionDir; "natives"]; "../" +:+ c] = path.Join [versionDir; c].
Proof.
  intros Hc. pose proof Hc as (Hne & Hd & Hdd & Hs).
  rewrite (Join_nested [versionDir; "natives"] ["../" +:+ c]). cbn [app].
  assert (Hdots : "../" +:+ c <> "") by discriminate.
  assert (Hsplit : strings.Split ("natives/../" +:+ c) "/" = ["natives"; ".."; c]).
  { change ("natives/../" +:+ c) with ("natives" +:+ String "/" (".." +:+ String "/" c)).
    rewrite (Split_append "natives" _ "/" eq_refl), (Split_append ".." c "/" eq_refl).
    rewrite (Split_whole c "/" Hs). reflexivity. }
  assert (Hfold : forall rooted out,
            fold_left (path.clean_step rooted) ["natives"; ".."; c] out = c :: out).
  { intros rooted out. cbn [fold_left].
    change (path.clean_step rooted out "natives") with ("natives" :: out).
    change (path.clean_step rooted ("natives" :: out) "..") with out.
    apply clean_step_plain. exact Hc. }
  destruct (decide (versionDir = "")) as [-> | Hv].
  - rewrite !Join_skip_empty.
    rewrite (Join_all_nonempty ["natives"; "../" +:+ c]) by
      (discriminate || (constructor; [discriminate | constructor; [exact Hdots | constructor]])).
    rewrite (Join_all_nonempty [c]) by
      (discriminate || (constructor; [exact Hne | constructor])).
    change (strings.Join ["natives"; "../" +:+ c] "/") with ("natives/../" +:+ c).
    change (strings.Join [c] "/") with c.
    unfold path.Clean, path.elements.
    change (path.is_rooted ("natives/../" +:+ c)) with false.
    rewrite Hsplit, Hfold, (Split_whole c "/" Hs), (plain_not_rooted c Hc).
    cbn [fold_left]. rewrite clean_step_plain by exact Hc. reflexivity.
  - rewrite (Join_all_nonempty [versionDir; "natives"; "../" +:+ c]) by
      (discriminate
       || (constructor; [exact Hv | constructor; [discriminate |
             constructor; [exact Hdots | constructor]]])).
    rewrite (Join_all_nonempty [versionDir; c]) by
      (discriminate || (constructor; [exact Hv | constructor; [exact Hne | constructor]])).
    change (strings.Join [versionDir; "natives"; "../" +:+ c] "/")
      with (versionDir +:+ String "/" ("natives/../" +:+ c)).
    change (strings.Join [versionDir; c] "/") with (versionDir +:+ String "/" c).
    unfold path.Clean.
    rewrite !(elements_app versionDir _ Hv), !(is_rooted_app versionDir _ Hv).
    rewrite Hsplit, Hfold, (Split_whole c "/" Hs).
    cbn [fold_left]. rewrite clean_step_plain by exact Hc. reflexivity.
Qed.

(** X2. An archive entry can leave the scratch directory: an entry whose
    path is [../] followed by a plain name is created and written beside
    the natives directory, in the version directory itself, where the
    final [os.RemoveAll(nativesDir)] does not reach it. *)
Theorem entry_escapes_scratch (env : Env) (versionDir c : string) (data : list byte)
    (st : state) :
  plain c ->
  os_Create env (path.Join [versionDir; c]) = true ->
  extract_entry env (path.Join [versionDir; "natives"]) (entry ("../" +:+ c) data) st
  = (with_effects st [CreateFile (path.Join [versionDir; c]);
                      WriteFile (path.Join [versionDir; c]) data],
     Ok tt).
Proof.
  intros Hc Hcreate. rewrite extract_entry_cases.
  unfold written, destination, entry. cbn [ZipFile_Name ZipFile_Body].
  rewrite (Join_dotdot versionDir c Hc), Hcreate. reflexivity.
Qed.

Lemma entry_escapes_scratch_witness :
  extract_entry open_env (path.Join ["/mc/versions/1.7.10"; "natives"])
    (entry ("../" +:+ "1.7.10.jar") (bytes_of "x")) initial
  = (with_effects initial [CreateFile (path.Join ["/mc/versions/1.7.10"; "1.7.10.jar"]);
                           WriteFile (path.Join ["/mc/versions/1.7.10"; "1.7.10.jar"])
                             (bytes_of "x")],
     Ok tt).
Proof.
  apply entry_escapes_scratch; [| reflexivity].
  repeat split; discriminate.
Defined.

(** X3. An entry whose path is made of plain elements goes to the path
    made of the scratch directory, a slash, and the entry's path as it
    is: when that path can be created the entry is created and written
    there, inside the scratch directory, and when it cannot the process
    ends on the failure to create it, with nothing done for the entry. *)
Theorem plain_entry_stays_inside (env : Env) (versionDir : string) (cs : list string)
    (name : string) (data : list byte) (st : state) :
  cs <> [] ->
  Forall plain cs ->
  name = strings.Join cs "/" ->
  let nativesDir := path.Join [versionDir; "natives"] in
  let target := nativesDir +:+ "/" +:+ name in
  extract_entry env nativesDir (entry name data) st
  = if os_Create env target
    then (with_effects st [CreateFile target; WriteFile target data], Ok tt)
    else (st, Exit 0 CreateFailed).
Proof.
  intros Hne Hp Hname nativesDir target.
  assert (Hdest : destination nativesDir (entry name data) = target).
  { unfold destination, target, nativesDir, entry. cbn [ZipFile_Name]. rewrite Hname.
    assert (Hnatives : plain "natives") by (repeat split; discriminate).
    destruct (Join_plain_last versionDir "natives" Hnatives) as (X & HX & Hout).
    rewrite HX. unfold path.Join.
    assert (HP : strings.Join cs "/" <> "").
    { destruct cs as [| c rest]; [congruence |].
      inversion Hp as [| ? ? (Hc & _) _]; subst. apply Join_nonempty. exact Hc. }
    rewrite filter_cons_True by apply Clean_not_empty.
    rewrite filter_cons_True by exact HP.
    rewrite filter_nil.
    change (strings.Join [path.Clean X; strings.Join cs "/"] "/")
      with (path.Clean X +:+ "/" +:+ strings.Join cs "/").
    apply Clean_extend; assumption. }
  rewrite extract_entry_cases. unfold written. rewrite Hdest.
  destruct (os_Create env target); reflexivity.
Qed.

Lemma plain_entry_stays_inside_witness :
  extract_entry open_env (path.Join ["/mc/versions/1.7.10"; "natives"])
    (entry "liblwjgl.so" (bytes_of "ELF")) initial
  = (with_effects initial
       [CreateFile "/mc/versions/1.7.10/natives/liblwjgl.so";
        WriteFile "/mc/versions/1.7.10/natives/liblwjgl.so" (bytes_of "ELF")],
     Ok tt).
Proof.
  apply (plain_entry_stays_inside open_env "/mc/versions/1.7.10" ["liblwjgl.so"]
           "liblwjgl.so" (bytes_of "ELF") initial).
  - discriminate.
  - repeat constructor; discriminate.
  - reflexivity.
Defined.

(** ** Exclusion prefixes at the edges *)

(** X4. An empty exclusion prefix matches every path: with [""] among
    the prefixes nothing is extracted, nothing can fail, and the loop
    leaves the world as it was. *)
Theorem empty_prefix_excludes_all (env : Env) (nativesDir : string)
    (excludes : list string) (files : list ZipFile) (st : state) :
  "" ∈ excludes ->
  ZipLoop env nativesDir excludes files st = (st, Ok tt).
Proof.
  intros Hin.
  assert (Hall : forall name, excluded excludes name = true).
  { intros name. apply excluded_iff. exists "". split; [exact Hin |].
    exists name. reflexivity. }
  induction files as [| file rest IH]; [reflexivity |].
  rewrite ZipLoop_cons, Hall. exact IH.
Qed.

Lemma empty_prefix_excludes_all_witness :
  ZipLoop bare_env "natives" ["META-INF/"; ""] sample_entries initial = (initial, Ok tt).
Proof.
  apply empty_prefix_excludes_all. right. left.
Defined.

(** X5. A library without an ["exclude"] entry in its [extract] map
    excludes nothing: every entry of its archive is created and written,
    in order, as long as nothing fails. *)
Theorem no_exclude_key_extracts_all (env : Env) (nativesDir : string)
    (library : Library) (files : list ZipFile) (st : state) :
  Library_Extract library !! "exclude" = None ->
  Forall (extractable env nativesDir) files ->
  ZipLoop env nativesDir (get_strings (Library_Extract library) "exclude") files st
  = (with_effects st (flat_map (written nativesDir) files), Ok tt).
Proof.
  intros Hkey Hall. unfold get_strings. rewrite Hkey. cbn [default].
  apply ZipLoop_all. exact Hall.
Qed.

Lemma no_exclude_key_extracts_all_witness :
  ZipLoop open_env "natives"
    (get_strings (Library_Extract (no_natives "a:b:c" [])) "exclude")
    sample_entries initial
  = (with_effects initial (flat_map (written "natives") sample_entries), Ok tt).
Proof.
  apply no_exclude_key_extracts_all.
  - reflexivity.
  - repeat constructor; eexists; reflexivity.
Defined.

(** ** The digest file at its bounds *)

(** X6. A digest file that cannot be opened, cannot be read, or holds
    fewer than 40 bytes ends the launch before the archive is looked at:
    the outcome is the same whatever the archive is, and nothing has been
    hashed. *)
Theorem short_digest_file (env : Env) (nativeLib filename : string) (st : state) :
  (os_Open env (nativeLib +:+ sigExt) = None ->
   verify env nativeLib filename st = (st, Exit 0 SignatureOpenFailed))
  /\ (forall sig,
        os_Open env (nativeLib +:+ sigExt) = Some sig ->
        File_readable sig = false \/ (length (File_data sig) < 40)%nat ->
        verify env nativeLib filename st = (st, Exit 0 SignatureReadFailed)).
Proof.
  pose proof (verify_cases env nativeLib filename st) as C.
  split.
  - intros Ho. rewrite Ho in C. exact C.
  - intros sig Ho Hbad. rewrite Ho in C.
    assert (Hread : ReadFull sig 40 = None).
    { destruct (ReadFull sig 40) as [signature |] eqn:E; [| reflexivity].
      apply ReadFull_Some in E as (Hr & Hlen & _).
      destruct Hbad as [Hb | Hb]; [congruence | lia]. }
    rewrite Hread in C. exact C.
Qed.

Lemma short_digest_file_witness :
  verify bare_env "/lib/n.jar" "n.jar" initial = (initial, Exit 0 SignatureOpenFailed).
Proof.
  apply (proj1 (short_digest_file bare_env "/lib/n.jar" "n.jar" initial)).
  reflexivity.
Defined.

(** ** What a launch does to the world, and in what order *)

Lemma written_file_effects nativesDir file : Forall file_effect (written nativesDir file).
Proof.
  unfold written. destruct (ZipFile_Body file); repeat constructor.
Qed.

(** Whatever a library step does to the world is creating and writing
    files. *)
Lemma library_step_effects env minecraftDir nativesDir library st st' r :
  library_step env minecraftDir nativesDir library st = (st', r) ->
  exists es, effects st' = effects st ++ es /\ Forall file_effect es.
Proof.
  intros H.
  assert (Hnone : forall s : state, effects s = effects st ->
            exists es, effects s = effects st ++ es /\ Forall file_effect es).
  { intros s Hs. exists []. rewrite app_nil_r. split; [exact Hs | constructor]. }
  rewrite library_step_cases in H. cbv zeta in H.
  destruct (rules_allowed _ _); [| inversion H; subst; apply Hnone; reflexivity].
  destruct (strings.cut _ _) as [[group rest] |];
    [| inversion H; subst; apply Hnone; reflexivity].
  destruct (String.eqb _ ""); [inversion H; subst; apply Hnone; reflexivity |].
  unfold bind in H.
  destruct (verify env _ _ st) as [st1 r1] eqn:V.
  destruct (verify_result _ _ _ _ _ _ V) as [(f & -> & ->) | (w & -> & _ & He & _)].
  - rewrite extract_cases in H. cbn [fst snd] in H.
    destruct (File_seekable f); [| inversion H; subst; apply Hnone; reflexivity].
    destruct (zip_NewReader env _) as [files |];
      [| inversion H; subst; apply Hnone; reflexivity].
    destruct (ZipLoop_effects _ _ _ _ _ _ _ H) as (es & -> & Hes).
    exists es. split; [reflexivity |].
    apply Forall_forall. intros e He.
    destruct (Hes e He) as (file & _ & _ & Hw).
    pose proof (written_file_effects nativesDir file) as Hf.
    rewrite Forall_forall in Hf. apply Hf. exact Hw.
  - inversion H; subst. apply Hnone. exact He.
Qed.

Lemma library_loop_effects env minecraftDir nativesDir libs st st' r :
  library_loop env minecraftDir nativesDir libs st = (st', r) ->
  exists es, effects st' = effects st ++ es /\ Forall file_effect es.
Proof.
  revert st. induction libs as [| library rest IH]; intros st H.
  - inversion H. exists []. rewrite app_nil_r. split; [reflexivity | constructor].
  - simpl in H. unfold bind in H.
    destruct (library_step env minecraftDir nativesDir library st) as [st1 r1] eqn:S.
    destruct (library_step_effects _ _ _ _ _ _ _ S) as (es1 & He1 & Hf1).
    destruct r1 as [[] | why | code why].
    + destruct (IH st1 H) as (es2 & He2 & Hf2).
      exists (es1 ++ es2). split.
      * rewrite He2, He1, app_assoc. reflexivity.
      * apply Forall_app. auto.
    + inversion H; subst. exists es1. auto.
    + inversion H; subst. exists es1. auto.
Qed.

(** What [launch] is, by how the library loop ends. *)
Lemma launch_cases env profileData launchConfig minecraftDir profile user st :
  let id := Profile_ID (get_Profile (Profiles profileData) profile) in
  let versionDir := path.Join [minecraftDir; versionsDir; id] in
  let nativesDir := path.Join [versionDir; "natives"] in
  launch env profileData launchConfig minecraftDir profile user st
  = match library_loop env minecraftDir nativesDir (LaunchConfig_Libraries launchConfig)
            (with_effects st [Mkdir nativesDir]) with
    | (st1, Ok _) =>
        let st2 := {| libraries := libraries st1 ++ [path.Join [versionDir; id +:+ jarExt]];
                      hash := hash st1; effects := effects st1 |} in
        supervise env nativesDir
          (assemble nativesDir (libraries st2) (LaunchConfig_Class launchConfig)
             (substitute (main_context profileData minecraftDir profile user)
                (LaunchConfig_Args launchConfig))) st2
    | (st1, Return why) => (st1, Return why)
    | (st1, Exit code why) => (st1, Exit code why)
    end.
Proof. reflexivity. Qed.

Lemma supervise_cases env nativesDir args st :
  supervise env nativesDir args st
  = if StdoutPipe_ok env then
      (with_effects st ((if Start_ok env then [StartProcess "java" args] else [])
                        ++ [RemoveAll nativesDir]),
       if os_RemoveAll_ok env then Ok tt else Exit 0 RemoveNativesFailed)
    else (st, Return StdoutPipeFailed).
Proof.
  unfold supervise. destruct (StdoutPipe_ok env); [| reflexivity].
  destruct st as [l h e].
  destruct (Start_ok env), (os_RemoveAll_ok env);
    unfold bind, emit, fail, fatal, ret, with_effects; cbn;
    rewrite <- ?app_assoc, ?app_nil_r; reflexivity.
Qed.



(** ** One library, one kind *)

(** X9. A library is a native one or a classpath one, never both: a step
    that goes on for a library with a classifier for the platform leaves
    the classpath as it is, and a step for a library without one adds at
    most one entry and does nothing to the world or to the hash. *)
Theorem native_or_classpath (env : Env) (minecraftDir nativesDir : string)
    (library : Library) (st st' : state) :
  let classifier := get_string (Library_Natives library) (osStr_of (GOOS env)) in
  library_step env minecraftDir nativesDir library st = (st', Ok tt) ->
  (classifier <> "" -> libraries st' = libraries st)
  /\ (classifier = "" ->
      effects st' = effects st /\ hash st' = hash st
      /\ (libraries st' = libraries st \/ exists p, libraries st' = libraries st ++ [p])).
Proof.
  intros classifier H. split.
  - intros Hc. rewrite (library_step_libraries _ _ _ _ _ _ H).
    unfold classpath_entry. fold classifier.
    apply String.eqb_neq in Hc. rewrite Hc.
    destruct (rules_allowed _ _); [| apply app_nil_r].
    destruct (strings.cut _ _) as [[group rest] |]; apply app_nil_r.
  - intros Hc. rewrite library_step_cases in H. cbv zeta in H.
    fold classifier in H. rewrite Hc in H. cbn [String.eqb] in H.
    destruct (rules_allowed _ _); [| inversion H; subst; auto].
    destruct (strings.cut _ _) as [[group rest] |]; [| discriminate H].
    inversion H; subst. cbn [effects hash libraries].
    split; [reflexivity | split; [reflexivity |]]. right. eexists. reflexivity.
Qed.

Lemma native_or_classpath_witness :
  libraries (fst (library_step (native_env "linux" 0) "/mc" "/mc/versions/1.7.10/natives"
                    (nth 1 sample_libraries (no_natives "" [])) initial))
  = libraries initial.
Proof.
  apply (proj1 (native_or_classpath (native_env "linux" 0) "/mc"
                  "/mc/versions/1.7.10/natives"
                  (nth 1 sample_libraries (no_natives "" [])) initial
                  (fst (library_step (native_env "linux" 0) "/mc"
                          "/mc/versions/1.7.10/natives"
                          (nth 1 sample_libraries (no_natives "" [])) initial))
                  ltac:(vm_compute; reflexivity))).
  vm_compute. discriminate.
Defined.

(** ** One hash for all archives *)

(** The verdict of verification depends on the state only through the
    hash. *)
Lemma verify_verdict env nativeLib filename st1 st2 :
  hash st1 = hash st2 ->
  snd (verify env nativeLib filename st1) = snd (verify env nativeLib filename st2).
Proof.
  intros Hh.
  pose proof (verify_cases env nativeLib filename st1) as C1.
  pose proof (verify_cases env nativeLib filename st2) as C2.
  destruct (os_Open env (nativeLib +:+ sigExt)) as [sig |]; [| rewrite C1, C2; reflexivity].
  destruct (ReadFull sig 40) as [signature |]; [| rewrite C1, C2; reflexivity].
  destruct (os_Open env nativeLib) as [f |]; [| rewrite C1, C2; reflexivity].
  destruct (File_readable f); [| rewrite C1, C2; reflexivity].
  cbv zeta in C1, C2. rewrite Hh in C1.
  destruct C1 as [[Ha1 C1] | [Hn1 C1]], C2 as [[Ha2 C2] | [Hn2 C2]];
    rewrite C1, C2; try reflexivity; contradiction.
Qed.

(** The loop over files that change is the loop, when they do not. *)
Lemma library_steps_same env minecraftDir nativesDir libs st :
  library_steps minecraftDir nativesDir (map (pair env) libs) st
  = library_loop env minecraftDir nativesDir libs st.
Proof.
  revert st. induction libs as [| library rest IH]; intros st; [reflexivity |].
  cbn [map library_steps library_loop]. unfold bind.
  destruct (library_step env minecraftDir nativesDir library st) as [st1 [[] | why | code why]];
    [apply IH | reflexivity | reflexivity].
Qed.

Lemma library_steps_hash minecraftDir nativesDir steps st st' :
  hash st = [] ->
  library_steps minecraftDir nativesDir steps st = (st', Ok tt) ->
  hash st' = [].
Proof.
  revert st. induction steps as [| [env library] rest IH]; intros st Hh H.
  - inversion H; subst. exact Hh.
  - cbn [library_steps] in H. unfold bind in H.
    destruct (library_step env minecraftDir nativesDir library st) as [st1 r1] eqn:S.
    destruct r1 as [[] | why | code why]; [| discriminate H ..].
    apply (IH st1); [| exact H].
    exact (library_step_hash _ _ _ _ _ _ Hh S).
Qed.

(** X10. The hash object that all libraries share carries nothing from
    one archive to the next: it is empty again after any number of
    libraries that went through, whatever the files were at each of them,
    so on whatever machine the next archive is verified, the verdict is
    the one a fresh hash gives there. *)
Theorem verification_is_per_archive (minecraftDir nativesDir : string)
    (steps : list (Env * Library)) (st st1 : state) :
  hash st = [] ->
  library_steps minecraftDir nativesDir steps st = (st1, Ok tt) ->
  hash st1 = []
  /\ forall env nativeLib filename,
       snd (verify env nativeLib filename st1) = snd (verify env nativeLib filename initial).
Proof.
  intros Hh Hloop.
  pose proof (library_steps_hash _ _ _ _ _ Hh Hloop) as H1.
  split; [exact H1 |]. intros env nativeLib filename.
  apply verify_verdict. rewrite H1. reflexivity.
Qed.

Lemma verification_is_per_archive_witness :
  let native := nth 1 sample_libraries (no_natives "" []) in
  let steps := [ (archive_env empty_zip_digest, native);
                 (archive_env empty_zip_digest, native) ] in
  hash (fst (library_steps "/mc" "/mc/versions/1.7.10/natives" steps initial)) = []
  /\ forall env nativeLib filename,
       snd (verify env nativeLib filename
              (fst (library_steps "/mc" "/mc/versions/1.7.10/natives" steps initial)))
       = snd (verify env nativeLib filename initial).
Proof.
  intros native steps.
  apply (verification_is_per_archive "/mc" "/mc/versions/1.7.10/natives" steps initial).
  - reflexivity.
  - vm_compute. reflexivity.
Defined.

(** ** The platform's name *)

(** X11. The platform is never called [darwin]: on macOS the launcher's
    platform is [osx], and on no platform does a rule for [darwin] apply
    or a native classifier filed under [darwin] get read; a library all of
    whose rules are for [darwin] is allowed nowhere. *)
Theorem darwin_is_osx (goos : string) :
  osStr_of goos <> "darwin"
  /\ osStr_of "darwin" = "osx"
  /\ (forall r, OS_Name (Rule_OS r) = "darwin" -> ~ applies (osStr_of goos) r)
  /\ (forall rules,
        rules <> [] ->
        Forall (fun r => OS_Name (Rule_OS r) = "darwin") rules ->
        rules_allowed (osStr_of goos) rules = false)
  /\ (forall natives classifier,
        get_string (<["darwin" := classifier]> natives) (osStr_of goos)
        = get_string natives (osStr_of goos)).
Proof.
  assert (Hne : osStr_of goos <> "darwin").
  { unfold osStr_of. destruct (String.eqb_spec goos "darwin"); [discriminate | assumption]. }
  assert (Hrule : forall r, OS_Name (Rule_OS r) = "darwin" -> ~ applies (osStr_of goos) r).
  { intros r Hr [H | H]; rewrite Hr in H; [congruence | discriminate H]. }
  split; [exact Hne |]. split; [reflexivity |]. split; [exact Hrule |]. split.
  - intros rules Hnil Hall. unfold rules_allowed.
    rewrite fold_skips by (eapply Forall_impl; [exact Hall | exact Hrule]).
    destruct rules; [congruence | reflexivity].
  - intros natives classifier. unfold get_string.
    rewrite lookup_insert_ne by congruence. reflexivity.
Qed.

Lemma darwin_is_osx_witness :
  rules_allowed (osStr_of "darwin") [rule "allow" "darwin"] = false.
Proof.
  apply (proj1 (proj2 (proj2 (proj2 (darwin_is_osx "darwin"))))).
  - discriminate.
  - repeat constructor.
Defined.

(** ** Choosing the user *)

(** The loop stops at the first entry with the display name; without one
    the string is left as it was. *)
Lemma find_user_found order name uuid u :
  (uuid, u) ∈ order -> User_Name u = name ->
  exists u', (find_user order name, u') ∈ order /\ User_Name u' = name.
Proof.
  intros Hin Hname. induction order as [| [k v] rest IH]; [inversion Hin |].
  cbn [find_user]. destruct (String.eqb_spec (User_Name v) name) as [E | E].
  - exists v. split; [left | exact E].
  - apply elem_of_cons in Hin as [Hin | Hin]; [inversion Hin; subst; contradiction |].
    destruct (IH Hin) as (u' & Hu' & Hn). exists u'. split; [right; exact Hu' | exact Hn].
Qed.

Lemma find_user_none order name :
  (forall uuid u, (uuid, u) ∈ order -> User_Name u <> name) ->
  find_user order name = name.
Proof.
  intros H. induction order as [| [k v] rest IH]; [reflexivity |].
  cbn [find_user]. destruct (String.eqb_spec (User_Name v) name) as [E | E].
  - destruct (H k v); [left | exact E].
  - apply IH. intros uuid u Hin. apply (H uuid u). right. exact Hin.
Qed.

Lemma range_lookup {A} (order : list (string * A)) (m : gmap string A) k v :
  order ≡ₚ map_to_list m -> (k, v) ∈ order <-> m !! k = Some v.
Proof. intros H. rewrite H. apply elem_of_map_to_list. Qed.

(** X12. Choosing a user by display name finds a user with that name
    whenever the database has one, in whatever order the map is ranged
    over, and the player name substituted later is the name that was
    given. *)
Theorem user_by_display_name (ranges : Ranges) (profileData : ProfileData)
    (flags : Flags) (uuid : string) (u : User) :
  users_lookup ranges ≡ₚ map_to_list (Users profileData) ->
  flag_lastuser flags = false ->
  Users profileData !! uuid = Some u ->
  User_Name u = flag_user flags ->
  exists uuid' u',
    select_user ranges profileData flags = inr uuid'
    /\ Users profileData !! uuid' = Some u'
    /\ User_Name u' = flag_user flags
    /\ forall minecraftDir profile,
         playerName (main_context profileData minecraftDir profile uuid') = flag_user flags.
Proof.
  intros Hrange Hlast Hu Hname.
  apply (range_lookup _ _ _ _ Hrange) in Hu.
  destruct (find_user_found _ _ _ _ Hu Hname) as (u' & Hin & Hn).
  apply (range_lookup _ _ _ _ Hrange) in Hin.
  exists (find_user (users_lookup ranges) (flag_user flags)), u'.
  unfold select_user. rewrite Hlast, Hin.
  split; [reflexivity |]. split; [reflexivity |]. split; [exact Hn |].
  intros minecraftDir profile. unfold main_context, get_User. cbn [playerName].
  rewrite Hin. exact Hn.
Qed.

Lemma user_by_display_name_witness :
  exists uuid' u',
    select_user sample_ranges sample_profiles (flags_user "/mc" "Alice") = inr uuid'
    /\ Users sample_profiles !! uuid' = Some u'
    /\ User_Name u' = "Alice"
    /\ forall minecraftDir profile,
         playerName (main_context sample_profiles minecraftDir profile uuid') = "Alice".
Proof.
  apply (user_by_display_name sample_ranges sample_profiles (flags_user "/mc" "Alice")
           "u-1" {| User_Name := "Alice"; User_AccessToken := "s3cr3t" |});
    reflexivity.
Defined.

(** X13. When exactly one user has the display name, that user is chosen,
    whatever the order of the range. *)
Theorem unique_display_name (ranges : Ranges) (profileData : ProfileData)
    (flags : Flags) (uuid : string) (u : User) :
  users_lookup ranges ≡ₚ map_to_list (Users profileData) ->
  flag_lastuser flags = false ->
  Users profileData !! uuid = Some u ->
  User_Name u = flag_user flags ->
  (forall uuid' u', Users profileData !! uuid' = Some u' ->
                    User_Name u' = flag_user flags -> uuid' = uuid) ->
  select_user ranges profileData flags = inr uuid.
Proof.
  intros Hrange Hlast Hu Hname Hunique.
  pose proof Hu as Hu0.
  apply (range_lookup _ _ _ _ Hrange) in Hu.
  destruct (find_user_found _ _ _ _ Hu Hname) as (u' & Hin & Hn).
  apply (range_lookup _ _ _ _ Hrange) in Hin.
  unfold select_user. rewrite Hlast, Hin.
  rewrite (Hunique _ _ Hin Hn). reflexivity.
Qed.

Lemma unique_display_name_witness :
  select_user sample_ranges sample_profiles (flags_user "/mc" "Alice") = inr "u-1".
Proof.
  apply (unique_display_name sample_ranges sample_profiles (flags_user "/mc" "Alice")
           "u-1" {| User_Name := "Alice"; User_AccessToken := "s3cr3t" |});
    try reflexivity.
  intros uuid' u' Hu' _. unfold sample_profiles in Hu'. cbn [Users] in Hu'.
  apply lookup_singleton_Some in Hu'. symmetry. apply Hu'.
Defined.

(** X14. When several users share a display name, which of them is
    chosen is up to the order of the range: each of them is the choice of
    some order. *)
Theorem shared_display_name (profileData : ProfileData) (name uuid : string) (u : User) :
  Users profileData !! uuid = Some u ->
  User_Name u = name ->
  exists order,
    order ≡ₚ map_to_list (Users profileData) /\ find_user order name = uuid.
Proof.
  intros Hu Hname.
  apply elem_of_map_to_list, elem_of_Permutation in Hu as [rest Hrest].
  exists ((uuid, u) :: rest). split; [symmetry; exact Hrest |].
  cbn [find_user]. apply String.eqb_eq in Hname. rewrite Hname. reflexivity.
Qed.

Lemma shared_display_name_witness :
  (exists order,
     order ≡ₚ map_to_list (Users twins) /\ find_user order "Alice" = "u-1")
  /\ (exists order,
        order ≡ₚ map_to_list (Users twins) /\ find_user order "Alice" = "u-2").
Proof.
  split.
  - apply (shared_display_name twins "Alice" "u-1"
             {| User_Name := "Alice"; User_AccessToken := "s3cr3t" |}); reflexivity.
  - apply (shared_display_name twins "Alice" "u-2"
             {| User_Name := "Alice"; User_AccessToken := "0th3r" |}); reflexivity.
Defined.

(** X15. A string that is no user's display name is taken as a user's
    key: the choice succeeds exactly when the database has that key, and
    otherwise the launcher lists the users and stops. *)
Theorem user_by_key (ranges : Ranges) (profileData : ProfileData) (flags : Flags) :
  users_lookup ranges ≡ₚ map_to_list (Users profileData) ->
  flag_lastuser flags = false ->
  (forall uuid u, Users profileData !! uuid = Some u -> User_Name u <> flag_user flags) ->
  select_user ranges profileData flags
  = match Users profileData !! flag_user flags with
    | Some _ => inr (flag_user flags)
    | None => inl (NoUserSelected
                     (user_lines (users_listing ranges) (SelectedUser profileData)))
    end.
Proof.
  intros Hrange Hlast Hnone. unfold select_user. rewrite Hlast.
  rewrite find_user_none; [reflexivity |].
  intros uuid u Hin. apply (Hnone uuid u).
  apply (range_lookup _ _ _ _ Hrange). exact Hin.
Qed.

Lemma user_by_key_witness :
  select_user sample_ranges sample_profiles (flags_user "/mc" "u-1") = inr "u-1".
Proof.
  rewrite (user_by_key sample_ranges sample_profiles (flags_user "/mc" "u-1"));
    try reflexivity.
  intros uuid u Hu. unfold sample_profiles in Hu. cbn [Users] in Hu.
  apply lookup_singleton_Some in Hu as [_ <-]. discriminate.
Defined.

(** ** From the command line to the launch *)

(** X16. [main] reaches the launch only with a user and a profile that
    the database really has, and with the configuration read from
    [minecraftDir/versions/id/id.json] for that profile's version id: the
    zero values of missing map keys never reach the launch, and the
    substituted name, token and version are those of the entries. *)
Theorem main_launches_real_entries (env : Env) (ranges : Ranges)
    (profileData : ProfileData) (flags : Flags) (out : state * res unit) :
  main env ranges profileData flags = inr out ->
  exists user u profile p launchConfig,
    Users profileData !! user = Some u
    /\ Profiles profileData !! profile = Some p
    /\ read_config ranges
         (path.Join [flag_minecraft flags; versionsDir; Profile_ID p;
                     Profile_ID p +:+ jsonExt])
       = Decoded launchConfig
    /\ out = run env profileData launchConfig (flag_minecraft flags) profile user
    /\ main_context profileData (flag_minecraft flags) profile user
       = {| playerName := User_Name u;
            sessionToken := User_AccessToken u;
            selectedUserId := user;
            selectedVersionId := Profile_ID p;
            installDirectory := flag_minecraft flags |}.
Proof.
  unfold main, select_user, select_profile. intros H.
  set (user := if flag_lastuser flags then SelectedUser profileData
               else find_user (users_lookup ranges) (flag_user flags)) in *.
  set (profile := if flag_lastprofile flags then SelectedProfile profileData
                  else flag_profile flags) in *.
  destruct (Users profileData !! user) as [u |] eqn:Hu; [| discriminate H].
  destruct (Profiles profileData !! profile) as [p |] eqn:Hp; [| discriminate H].
  assert (Hpath : config_path (flag_minecraft flags) profileData profile
                  = path.Join [flag_minecraft flags; versionsDir; Profile_ID p;
                               Profile_ID p +:+ jsonExt]).
  { unfold config_path, get_Profile. rewrite Hp. cbn [default].
    apply (Join_nested [flag_minecraft flags; versionsDir; Profile_ID p]
             [Profile_ID p +:+ jsonExt]). }
  rewrite Hpath in H.
  destruct (read_config ranges _) as [| | launchConfig] eqn:Hc; [discriminate H .. |].
  inversion H; subst out.
  exists user, u, profile, p, launchConfig.
  split; [exact Hu |]. split; [exact Hp |]. split; [exact Hc |]. split; [reflexivity |].
  unfold main_context, get_User, get_Profile. rewrite Hu, Hp. reflexivity.
Qed.

Lemma main_launches_real_entries_witness :
  exists user u profile p launchConfig,
    Users sample_profiles !! user = Some u
    /\ Profiles sample_profiles !! profile = Some p
    /\ read_config sample_ranges
         (path.Join ["/mc"; versionsDir; Profile_ID p; Profile_ID p +:+ jsonExt])
       = Decoded launchConfig
    /\ run (native_env "linux" 0) sample_profiles sample_config "/mc" "survival" "u-1"
       = run (native_env "linux" 0) sample_profiles launchConfig "/mc" profile user
    /\ main_context sample_profiles "/mc" profile user
       = {| playerName := User_Name u;
            sessionToken := User_AccessToken u;
            selectedUserId := user;
            selectedVersionId := Profile_ID p;
            installDirectory := "/mc" |}.
Proof.
  apply (main_launches_real_entries (native_env "linux" 0) sample_ranges sample_profiles
           (flags_user "/mc" "Alice")).
  vm_compute. reflexivity.
Defined.

(** ** How many arguments, and which file name *)

Lemma Split_length s sep : length (strings.Split s sep) = S (count_char sep s).
Proof.
  induction s as [| x s IH]; [reflexivity |].
  cbn [strings.Split count_char].
  destruct (Ascii.eqb x sep).
  - simpl. rewrite IH. reflexivity.
  - destruct (strings.Split s sep) as [| piece pieces]; simpl in *; lia.
Qed.

(** X17. The number of arguments after the main class is one more than
    the number of spaces in the template, whatever is substituted: a
    value with spaces in it stays one argument, and an empty template
    still passes one (empty) argument on. With the nine arguments before
    them that makes ten plus the number of spaces. *)
Theorem argument_count (ctx : Context) (template nativesDir class : string)
    (libraries : list string) :
  length (substitute ctx template) = S (count_char " " template)
  /\ length (assemble nativesDir libraries class (substitute ctx template))
     = (10 + count_char " " template)%nat
  /\ substitute ctx "" = [""].
Proof.
  assert (H : length (substitute ctx template) = S (count_char " " template)).
  { rewrite substitute_map, length_map. apply Split_length. }
  split; [exact H |]. split; [| reflexivity].
  unfold assemble. rewrite length_app, H. simpl. lia.
Qed.

Lemma Join_Split_replace s a b :
  strings.Join (strings.Split s a) (String b "") = replace_char a b s.
Proof.
  induction s as [| x s IH]; [reflexivity |].
  cbn [strings.Split replace_char].
  destruct (strings.Split s a) as [| piece pieces] eqn:E.
  { exfalso. exact (Split_nonempty s a E). }
  destruct (Ascii.eqb x a).
  - change (strings.Join ("" :: piece :: pieces) (String b ""))
      with (String b (strings.Join (piece :: pieces) (String b ""))).
    rewrite IH. reflexivity.
  - rewrite <- IH. destruct pieces; reflexivity.
Qed.

(** X18. Whatever the number of segments after the group, the file name
    of a library is what follows the first colon with every further colon
    turned into a dash, and [.jar]; the directory has one level for each
    dot-separated segment of the group and one for each colon-separated
    segment after it. *)
Theorem filename_replaces_colons (env : Env) (minecraftDir nativesDir : string)
    (library : Library) (group rest : string) (st : state) :
  rules_allowed (osStr_of (GOOS env)) (Library_Rules library) = true ->
  get_string (Library_Natives library) (osStr_of (GOOS env)) = "" ->
  strings.cut (Library_Name library) ":" = Some (group, rest) ->
  library_step env minecraftDir nativesDir library st
  = append_library
      (library_path minecraftDir
         (strings.Split group "." ++ strings.Split rest ":")
         (replace_char ":" "-" rest +:+ ".jar")) st.
Proof.
  intros Hallowed Hclassifier Hcut.
  rewrite library_step_cases. cbv zeta.
  rewrite Hallowed, Hcut, Hclassifier. cbn [String.eqb].
  unfold ordinary_filename. rewrite (Join_Split_replace rest ":" "-"). reflexivity.
Qed.

Lemma filename_replaces_colons_witness :
  library_step bare_env "/mc" "natives" (no_natives "org.lwjgl:lwjgl:2.9.0:sources" [])
    initial
  = append_library
      (library_path "/mc"
         (strings.Split "org.lwjgl" "." ++ strings.Split "lwjgl:2.9.0:sources" ":")
         (replace_char ":" "-" "lwjgl:2.9.0:sources" +:+ ".jar")) initial.
Proof.
  apply filename_replaces_colons; reflexivity.
Defined.

(** ** The two revisions side by side *)

(** X19. For a library without a classifier for the platform the two
    revisions do the same: they skip it when the rules do not allow it,
    add the same classpath entry when its name has a colon, and stop with
    the same message when it has none, the earlier one by returning from
    [main], the later one through [os.Exit(0)]. *)
Theorem revisions_agree_on_classpath (env : Env) (minecraftDir nativesDir : string)
    (library : Library) (st : state) :
  get_string (Library_Natives library) (osStr_of (GOOS env)) = "" ->
  (rules_allowed (osStr_of (GOOS env)) (Library_Rules library) = true ->
   strings.Contains (Library_Name library) ":" = false ->
   Part000.library_step env minecraftDir library st
   = (st, Return (UnknownLibraryFormat (Library_Name library)))
   /\ library_step env minecraftDir nativesDir library st
      = (st, Exit 0 (UnknownLibraryFormat (Library_Name library))))
  /\ (rules_allowed (osStr_of (GOOS env)) (Library_Rules library) = false
      \/ strings.Contains (Library_Name library) ":" = true ->
      Part000.library_step env minecraftDir library st
      = library_step env minecraftDir nativesDir library st).
Proof.
  intros Hclassifier.
  assert (Hold : Part000.library_step env minecraftDir library st
                 = if rules_allowed (osStr_of (GOOS env)) (Library_Rules library) then
                     match strings.cut (Library_Name library) ":" with
                     | None => (st, Return (UnknownLibraryFormat (Library_Name library)))
                     | Some (group, rest) =>
                         append_library
                           (library_path minecraftDir
                              (strings.Split group "." ++ strings.Split rest ":")
                              (ordinary_filename (strings.Split rest ":"))) st
                     end
                   else (st, Ok tt)).
  { unfold Part000.library_step. rewrite Hclassifier. cbn [String.eqb negb].
    destruct (rules_allowed _ _); [| reflexivity]. cbn [negb].
    rewrite SplitN_2.
    destruct (strings.cut (Library_Name library) ":") as [[group rest] |]; reflexivity. }
  rewrite Hold, library_step_cases. cbv zeta. rewrite Hclassifier. cbn [String.eqb].
  split.
  - intros Hallowed Hcolon. rewrite Hallowed.
    apply cut_None_iff in Hcolon. rewrite Hcolon. split; reflexivity.
  - intros [Hnot | Hcolon].
    + rewrite Hnot. reflexivity.
    + destruct (rules_allowed _ _); [| reflexivity].
      destruct (strings.cut (Library_Name library) ":") as [[group rest] |] eqn:C;
        [reflexivity |].
      apply cut_None_iff in C. congruence.
Qed.

Lemma revisions_agree_on_classpath_witness :
  Part000.library_step bare_env "/mc" (no_natives "com.example:lib:1.2.3" []) initial
  = library_step bare_env "/mc" "natives" (no_natives "com.example:lib:1.2.3" []) initial.
Proof.
  apply (proj2 (revisions_agree_on_classpath bare_env "/mc" "natives"
                  (no_natives "com.example:lib:1.2.3" []) initial eq_refl)).
  right. reflexivity.
Defined.

(** ** The earlier revision: the natives directory *)

(** X20. The natives directory of the earlier revision is the first name
    in the version directory's listing that starts with the prefix; names
    after it are not read. A failed read before it stops the search with
    nothing found, and a listing without such a name gives the empty
    string. *)
Theorem natives_directory_is_first_match (toMatch : string)
    (listing : list Part000Main.dirent) :
  let unmatched := Forall (fun n => ~ starts_with n toMatch) in
  match Part000Main.find_natives toMatch listing with
  | Some s =>
      (exists before after,
         listing = map Part000Main.Entry before ++ Part000Main.Entry s :: after
         /\ unmatched before /\ starts_with s toMatch)
      \/ (s = "" /\ exists names,
            listing = map Part000Main.Entry names /\ unmatched names)
  | None =>
      exists before after,
        listing = map Part000Main.Entry before ++ Part000Main.ReadError :: after
        /\ unmatched before
  end.
Proof.
  intros unmatched. induction listing as [| d rest IH].
  - right. split; [reflexivity |]. exists []. split; [reflexivity | constructor].
  - destruct d as [s |]; cbn [Part000Main.find_natives].
    + destruct (strings.HasPrefix s toMatch) eqn:P.
      * left. exists [], rest. split; [reflexivity |]. split; [constructor |].
        apply HasPrefix_starts_with. exact P.
      * assert (Hs : ~ starts_with s toMatch).
        { intros H. apply HasPrefix_starts_with in H. congruence. }
        destruct (Part000Main.find_natives toMatch rest) as [found |].
        -- destruct IH as [(before & after & -> & Hb & Hf) | (-> & names & -> & Hn)].
           ++ left. exists (s :: before), after.
              split; [reflexivity |]. split; [constructor; assumption | exact Hf].
           ++ right. split; [reflexivity |]. exists (s :: names).
              split; [reflexivity | constructor; assumption].
        -- destruct IH as (before & after & -> & Hb).
           exists (s :: before), after. split; [reflexivity | constructor; assumption].
    + exists [], rest. split; [reflexivity | constructor].
Qed.





(** ** The earlier revision: what it leaves alone *)



(** ** The stderr pipe *)


(** How the supervised part ends, case by case. *)
Lemma supervise_relayed_cases env relays nativesDir args st :
  supervise_relayed env relays nativesDir args st
  = if StdoutPipe_ok env then
      let started := if Start_ok env then [StartProcess "java" args] else [] in
      if panics_early relays then (with_effects st started, Panicked)
      else if panics_late relays
      then (with_effects st (started ++ [RemoveAll nativesDir]), Panicked)
      else (with_effects st (started ++ [RemoveAll nativesDir]),
            Ended (if os_RemoveAll_ok env then Ok tt else Exit 0 RemoveNativesFailed))
    else (st, Ended (Return StdoutPipeFailed)).
Proof.
  unfold supervise_relayed. destruct (StdoutPipe_ok env); [| reflexivity].
  destruct st as [l h e]. cbv zeta.
  destruct (Start_ok env), (panics_early relays), (panics_late relays),
    (os_RemoveAll_ok env); unfold with_effects; cbn;
    rewrite <- ?app_assoc, ?app_nil_r; reflexivity.
Qed.

Lemma launch_relayed_cases env relays profileData launchConfig minecraftDir profile user st :
  let id := Profile_ID (get_Profile (Profiles profileData) profile) in
  let versionDir := path.Join [minecraftDir; versionsDir; id] in
  let nativesDir := path.Join [versionDir; "natives"] in
  launch_relayed env relays profileData launchConfig minecraftDir profile user st
  = match library_loop env minecraftDir nativesDir (LaunchConfig_Libraries launchConfig)
            (with_effects st [Mkdir nativesDir]) with
    | (st1, Ok _) =>
        let st2 := {| libraries := libraries st1 ++ [path.Join [versionDir; id +:+ jarExt]];
                      hash := hash st1; effects := effects st1 |} in
        supervise_relayed env relays nativesDir
          (assemble nativesDir (libraries st2) (LaunchConfig_Class launchConfig)
             (substitute (main_context profileData minecraftDir profile user)
                (LaunchConfig_Args launchConfig))) st2
    | (st1, Return why) => (st1, Ended (Return why))
    | (st1, Exit code why) => (st1, Ended (Exit code why))
    end.
Proof.
  intros id versionDir nativesDir. unfold launch_relayed. fold id versionDir nativesDir.
  unfold bind, emit, append_library. fold (with_effects st [Mkdir nativesDir]).
  destruct (library_loop env minecraftDir nativesDir _ _) as [st1 [[] | why | code why]];
    reflexivity.
Qed.


(** Every ending of the process that is not the panic is an ending of
    [launch], in the same state. *)
Lemma supervise_relayed_ended env relays nativesDir args st st' r :
  supervise_relayed env relays nativesDir args st = (st', Ended r) ->
  supervise env nativesDir args st = (st', r).
Proof.
  rewrite supervise_relayed_cases, supervise_cases. cbv zeta.
  destruct (StdoutPipe_ok env); [| intros H; inversion H; reflexivity].
  destruct (panics_early relays); [discriminate |].
  destruct (panics_late relays); [discriminate |].
  intros H. inversion H. reflexivity.
Qed.

Lemma launch_relayed_ended env relays profileData launchConfig minecraftDir profile user
    st st' r :
  launch_relayed env relays profileData launchConfig minecraftDir profile user st
  = (st', Ended r) ->
  launch env profileData launchConfig minecraftDir profile user st = (st', r).
Proof.
  rewrite launch_relayed_cases, launch_cases. cbv zeta.
  destruct (library_loop env minecraftDir _ _ _) as [st1 [[] | why | code why]].
  - apply supervise_relayed_ended.
  - intros H. inversion H. reflexivity.
  - intros H. inversion H. reflexivity.
Qed.


Lemma panics_early_lost relays :
  panics_early relays = true ->
  StderrPipe_ok relays = false /\ stderr_race relays = PanicBeforeRemoveAll.
Proof.
  unfold panics_early. destruct (StderrPipe_ok relays), (stderr_race relays);
    cbn; intros H; try discriminate H; split; reflexivity.
Qed.

Lemma panics_late_lost relays :
  panics_late relays = true ->
  StderrPipe_ok relays = false /\ stderr_race relays = PanicAfterRemoveAll.
Proof.
  unfold panics_late. destruct (StderrPipe_ok relays), (stderr_race relays);
    cbn; intros H; try discriminate H; split; reflexivity.
Qed.

(** The library loop ends the process for reasons of its own, never with
    the message about the removal. *)
Lemma library_step_not_removal env minecraftDir nativesDir library :
  exits_with (fun why => why <> RemoveNativesFailed)
    (library_step env minecraftDir nativesDir library).
Proof.
  intros st st' r H. rewrite library_step_cases in H. cbv zeta in H.
  destruct (rules_allowed _ _); [| inversion H; exact I].
  destruct (strings.cut _ _) as [[group rest] |];
    [| inversion H; split; [reflexivity | discriminate]].
  destruct (String.eqb _ ""); [inversion H; exact I |].
  unfold bind in H.
  destruct (verify env _ _ st) as [st1 r1] eqn:V.
  destruct (verify_result _ _ _ _ _ _ V) as [(f & -> & ->) | (w & -> & Hv & _)].
  - pose proof (extract_exits _ _ _ _ _ _ _ _ H) as Hx.
    destruct r as [[] | why | code why]; [exact I | exact Hx |].
    destruct Hx as [Hc Hx]. split; [exact Hc |]. intros ->. exact Hx.
  - inversion H. split; [reflexivity |]. intros ->. exact Hv.
Qed.

Lemma library_loop_not_removal env minecraftDir nativesDir libs :
  exits_with (fun why => why <> RemoveNativesFailed)
    (library_loop env minecraftDir nativesDir libs).
Proof.
  induction libs as [| library rest IH]; intros st st' r H.
  - inversion H. exact I.
  - simpl in H. unfold bind in H.
    destruct (library_step env minecraftDir nativesDir library st) as [st1 r1] eqn:S.
    pose proof (library_step_not_removal _ _ _ _ _ _ _ S) as Hs.
    destruct r1 as [[] | why | code why].
    + exact (IH _ _ _ H).
    + destruct Hs.
    + inversion H; subst. exact Hs.
Qed.

(** The ways a launch ends, and the state it ends in: [fail] and the
    [return] leave the natives directory and the files written so far;
    the panic comes after the start of the child. *)
Lemma launch_relayed_ending env relays profileData launchConfig minecraftDir profile user
    st st' e :
  let id := Profile_ID (get_Profile (Profiles profileData) profile) in
  let nativesDir := path.Join [path.Join [minecraftDir; versionsDir; id]; "natives"] in
  launch_relayed env relays profileData launchConfig minecraftDir profile user st = (st', e) ->
  exists es,
    Forall file_effect es
    /\ match e with
       | Ended (Ok _) =>
           exists args,
             effects st' = effects st ++ Mkdir nativesDir :: es
                           ++ (if Start_ok env then [StartProcess "java" args] else [])
                           ++ [RemoveAll nativesDir]
       | Ended (Exit code RemoveNativesFailed) =>
           code = 0
           /\ exists args,
                effects st' = effects st ++ Mkdir nativesDir :: es
                              ++ (if Start_ok env then [StartProcess "java" args] else [])
                              ++ [RemoveAll nativesDir]
       | Ended (Exit code _) => code = 0 /\ effects st' = effects st ++ Mkdir nativesDir :: es
       | Ended (Return _) => effects st' = effects st ++ Mkdir nativesDir :: es
       | Panicked =>
           StderrPipe_ok relays = false
           /\ exists args,
                effects st' = effects st ++ Mkdir nativesDir :: es
                              ++ (if Start_ok env then [StartProcess "java" args] else [])
                              ++ match stderr_race relays with
                                 | PanicAfterRemoveAll => [RemoveAll nativesDir]
                                 | _ => []
                                 end
                /\ stderr_race relays <> MainEndsFirst
       end.
Proof.
  intros id nativesDir H. rewrite launch_relayed_cases in H. cbv zeta in H.
  fold id in H. fold nativesDir in H.
  destruct (library_loop env minecraftDir nativesDir _ _) as [st1 r1] eqn:L.
  destruct (library_loop_effects _ _ _ _ _ _ _ L) as (es & He & Hf).
  pose proof (library_loop_exits _ _ _ _ _ _ _ L) as Hx.
  cbn [effects with_effects] in He. rewrite <- app_assoc in He.
  change ([Mkdir nativesDir] ++ es) with (Mkdir nativesDir :: es) in He.
  exists es. split; [exact Hf |].
  destruct r1 as [[] | why | code why].
  - rewrite supervise_relayed_cases in H. cbv zeta in H.
    destruct (StdoutPipe_ok env).
    + destruct (panics_early relays) eqn:Pe.
      { apply panics_early_lost in Pe as [Hp Hr].
        inversion H; subst. split; [exact Hp |]. eexists. split.
        - cbn [effects with_effects]. rewrite He, Hr, app_nil_r, <- app_assoc. reflexivity.
        - rewrite Hr. discriminate. }
      destruct (panics_late relays) eqn:Pl.
      { apply panics_late_lost in Pl as [Hp Hr].
        inversion H; subst. split; [exact Hp |]. eexists. split.
        - cbn [effects with_effects]. rewrite He, Hr, <- app_assoc. reflexivity.
        - rewrite Hr. discriminate. }
      destruct (os_RemoveAll_ok env); inversion H; subst.
      * eexists. cbn [effects with_effects]. rewrite He, <- app_assoc. reflexivity.
      * split; [reflexivity |].
        eexists. cbn [effects with_effects]. rewrite He, <- app_assoc. reflexivity.
    + inversion H; subst. exact He.
  - destruct Hx.
  - inversion H; subst. destruct Hx as [-> _].
    pose proof (library_loop_not_removal _ _ _ _ _ _ _ L) as [_ Hw].
    destruct why; try (split; [reflexivity | exact He]).
    destruct (Hw eq_refl).
Qed.




(** X7. A launch that [fail] stops, or the [return] after a failed
    [StdoutPipe], leaves the scratch directory behind: the launcher has
    made the natives directory, has created and written files and nothing
    else; it has started no process and removed nothing. The one other
    ending that is neither the good one nor the failure of the removal
    itself is the panic after a failed [StderrPipe]: it comes after the
    start of [java], and before the removal or after it, as the race
    goes. *)
Theorem scratch_left_behind (env : Env) (relays : Relays) (profileData : ProfileData)
    (launchConfig : LaunchConfig) (minecraftDir profile user : string)
    (st st' : state) (e : ending) :
  let id := Profile_ID (get_Profile (Profiles profileData) profile) in
  let nativesDir := path.Join [path.Join [minecraftDir; versionsDir; id]; "natives"] in
  launch_relayed env relays profileData launchConfig minecraftDir profile user st = (st', e) ->
  e <> Ended (Ok tt) ->
  (forall code, e <> Ended (Exit code RemoveNativesFailed)) ->
  match e with
  | Ended _ =>
      exists es,
        effects st' = effects st ++ Mkdir nativesDir :: es /\ Forall file_effect es
  | Panicked =>
      StderrPipe_ok relays = false
      /\ exists es args,
           effects st' = effects st ++ Mkdir nativesDir :: es
                         ++ (if Start_ok env then [StartProcess "java" args] else [])
                         ++ match stderr_race relays with
                            | PanicAfterRemoveAll => [RemoveAll nativesDir]
                            | _ => []
                            end
           /\ Forall file_effect es
  end.
Proof.
  intros id nativesDir H Hok Hrm.
  destruct (launch_relayed_ending _ _ _ _ _ _ _ _ _ _ H) as (es & Hf & He).
  fold id in He. fold nativesDir in He.
  destruct e as [[[] | why | code why] |].
  - destruct Hok. reflexivity.
  - exists es. split; [exact He | exact Hf].
  - exists es. split; [| exact Hf].
    destruct why; try apply He. destruct (Hrm code). reflexivity.
  - destruct He as (Hp & args & He & _). split; [exact Hp |].
    exists es, args. split; [exact He | exact Hf].
Qed.

Lemma scratch_left_behind_witness :
  (exists es,
     effects (fst (run_relayed bare_env both_pipes sample_profiles sample_config
                     "/mc" "survival" "u-1"))
     = effects initial ++ Mkdir "/mc/versions/1.7.10/natives" :: es
     /\ Forall file_effect es)
  /\ (StderrPipe_ok (nil_stderr PanicBeforeRemoveAll) = false
      /\ exists es args,
           effects (fst (run_relayed bare_env (nil_stderr PanicBeforeRemoveAll)
                           sample_profiles classpath_config "/mc" "survival" "u-1"))
           = effects initial ++ Mkdir "/mc/versions/1.7.10/natives" :: es
             ++ [StartProcess "java" args] ++ []
           /\ Forall file_effect es).
Proof.
  split.
  - refine (scratch_left_behind bare_env both_pipes sample_profiles sample_config
              "/mc" "survival" "u-1" initial
              (fst (run_relayed bare_env both_pipes sample_profiles sample_config
                      "/mc" "survival" "u-1"))
              (Ended (Exit 0 SignatureOpenFailed)) _ _ _).
    + vm_compute. reflexivity.
    + discriminate.
    + discriminate.
  - refine (scratch_left_behind bare_env (nil_stderr PanicBeforeRemoveAll)
              sample_profiles classpath_config "/mc" "survival" "u-1" initial
              (fst (run_relayed bare_env (nil_stderr PanicBeforeRemoveAll)
                      sample_profiles classpath_config "/mc" "survival" "u-1"))
              Panicked _ _ _).
    + vm_compute. reflexivity.
    + discriminate.
    + discriminate.
Defined.

(** ** The earlier revision, to the end of its process *)

(** With a stderr pipe the earlier revision ends as its [launch] has
    it. *)
Lemma old_launch_relayed_piped env relays profileData launchConfig
    minecraftDir versionDir nativesDir st :
  StderrPipe_ok relays = true \/ stderr_race relays = MainEndsFirst ->
  Part000Relayed.launch env relays profileData launchConfig minecraftDir versionDir
    nativesDir st
  = (fst (Part000Main.launch env profileData launchConfig minecraftDir versionDir
            nativesDir st),
     Ended (snd (Part000Main.launch env profileData launchConfig minecraftDir versionDir
                   nativesDir st))).
Proof.
  intros H.
  assert (He : panics_early relays = false).
  { unfold panics_early. destruct H as [-> | ->]; [reflexivity | apply andb_false_r]. }
  assert (Hl : panics_late relays = false).
  { unfold panics_late. destruct H as [-> | ->]; [reflexivity | apply andb_false_r]. }
  unfold Part000Relayed.launch, Part000Main.launch, bind, append_library.
  destruct (Part000.library_loop env minecraftDir _ st) as [st1 [[] | why | code why]];
    [| reflexivity | reflexivity].
  unfold Part000Relayed.supervise, Part000Main.supervise. rewrite He, Hl.
  destruct (StdoutPipe_ok env); [| reflexivity].
  destruct (Start_ok env); unfold bind, emit, ret, with_effects; reflexivity.
Qed.



